(** * benten: the workflow document model (benten/models/workflow.py)

    A shallow embedding of the model that turns a parsed CWL workflow
    document into ports, steps and connections, together with the
    properties its specification states about it.

    Python objects are modelled as follows.
    - Exceptions: a [result] (value or raised exception) threaded with a
      bind; [WFConnectionError] is one of the exceptions and is the only one
      caught by [_list_connections].
    - [self.problems_with_wf], the list every method appends to (also through
      the alias [wf_error_list] given to [Step.from_doc]), is passed
      explicitly and returned.
    - Dynamically typed document nodes are the inductive [Node]; every
      operation the code applies to a node ([in], [.get], [[k]], iteration,
      [.start_line]) is a function returning a [result], raising what Python
      raises on a value of the wrong kind.
    - [OrderedDict] is an association list in insertion order. *)

From Stdlib Require Import ZArith List String Ascii Bool Lia.
Import ListNotations.
Set Warnings "-register-all".
Open Scope string_scope.
Open Scope list_scope.

(** ** Exceptions and results *)

Inductive exn : Type :=
| AttributeError
| TypeError
| ValueError
| KeyError
| FileNotFoundError
| OtherError (name : string)
| WFConnectionError (msg : string).

Inductive result (A : Type) : Type :=
| Ok (a : A)
| Raise (e : exn).
Arguments Ok {A} a.
Arguments Raise {A} e.

Definition bind {A B : Type} (r : result A) (k : A -> result B) : result B :=
  match r with
  | Ok a => k a
  | Raise e => Raise e
  end.

Notation "x <- r ;; k" := (bind r (fun x => k))
  (at level 61, r at next level, right associativity).
Notation "' pat <- r ;; k" := (bind r (fun x => match x with pat => k end))
  (at level 61, pat pattern, r at next level, right associativity).

(** ** Python strings

    A string of the model is a Python [str] whose characters are code points
    below 256, one character of the model for each; Python strings with
    other characters are outside the model. *)

(** [sub in s] on two Python strings. *)
Fixpoint str_in (sub s : string) : bool :=
  String.prefix sub s ||
  match s with
  | EmptyString => false
  | String _ s' => str_in sub s'
  end.

(** [s.split("/")]: one more part than there are slashes. *)
Fixpoint split_slash (s : string) : list string :=
  match s with
  | EmptyString => [EmptyString]
  | String c s' =>
      if Ascii.eqb c "/"%char then EmptyString :: split_slash s'
      else match split_slash s' with
           | [] => [String c EmptyString]
           | p :: ps => String c p :: ps
           end
  end.

(** [sep.join(parts)]. *)
Fixpoint join (sep : string) (parts : list string) : string :=
  match parts with
  | [] => EmptyString
  | [p] => p
  | p :: ps => p ++ sep ++ join sep ps
  end.

Definition dquote : ascii := ascii_of_nat 34.
Definition squote : ascii := ascii_of_nat 39.
Definition backslash : ascii := ascii_of_nat 92.

Definition hex_digit (n : nat) : ascii :=
  if Nat.ltb n 10 then ascii_of_nat (48 + n) else ascii_of_nat (87 + n).

(** [ch.isprintable()] for a code point below 256: the control characters
    (below 32, and 127 to 159), the no-break space 160 and the soft hyphen
    173 are not printable. *)
Definition printable (n : nat) : bool :=
  negb (Nat.ltb n 32) && negb (Nat.leb 127 n && Nat.leb n 160) && negb (Nat.eqb n 173).

(** One character of [repr(s)], [q] being the quote chosen for the whole
    string: the quote and the backslash are escaped, tab, newline and
    carriage return have their letter, and every other character that is not
    printable is written as [\xhh]. *)
Definition repr_char (q c : ascii) : string :=
  let n := nat_of_ascii c in
  if Ascii.eqb c q || Ascii.eqb c backslash then String backslash (String c EmptyString)
  else if Nat.eqb n 9 then String backslash "t"
  else if Nat.eqb n 10 then String backslash "n"
  else if Nat.eqb n 13 then String backslash "r"
  else if negb (printable n) then
    String backslash (String "x" (String (hex_digit (n / 16)) (String (hex_digit (n mod 16)) EmptyString)))
  else String c EmptyString.

Fixpoint repr_chars (q : ascii) (s : string) : string :=
  match s with
  | EmptyString => EmptyString
  | String c s' => repr_char q c ++ repr_chars q s'
  end.

(** [repr(s)] of a Python string: single quotes, unless the string holds a
    single quote and no double quote. *)
Definition py_repr (s : string) : string :=
  let q := if str_in (String squote EmptyString) s && negb (str_in (String dquote EmptyString) s)
           then dquote else squote in
  String q (repr_chars q s ++ String q EmptyString).

(** ** Dictionaries *)

(** [d.get(k)] on an association list: the first binding of [k]. *)
Fixpoint assoc {V : Type} (k : string) (d : list (string * V)) : option V :=
  match d with
  | [] => None
  | (k', v) :: d' => if String.eqb k' k then Some v else assoc k d'
  end.

(** [d[k] = v]: an existing key keeps its position, a new key goes last. *)
Fixpoint od_set {V : Type} (k : string) (v : V) (d : list (string * V)) : list (string * V) :=
  match d with
  | [] => [(k, v)]
  | (k', v') :: d' =>
      if String.eqb k' k then (k', v) :: d' else (k', v') :: od_set k v d'
  end.

(** A Python dictionary: the plain [{}] literal or an [OrderedDict]; the two
    differ in what [str(d.keys())] prints. *)
Record pydict (V : Type) : Type := mkdict {
  ordered : bool;
  items : list (string * V)
}.
Arguments mkdict {V} ordered items.
Arguments ordered {V} p.
Arguments items {V} p.

Definition empty_dict {V : Type} : pydict V := mkdict false [].

Definition od_step {V : Type} (d : list (string * V)) (kv : string * V)
  : list (string * V) :=
  od_set (fst kv) (snd kv) d.

(** [OrderedDict(pairs)]: the pairs are set one after the other. *)
Definition OrderedDict {V : Type} (pairs : list (string * V)) : pydict V :=
  mkdict true (fold_left od_step pairs []).

Definition dict_get {V : Type} (d : pydict V) (k : string) : option V :=
  assoc k (items d).

Definition dict_contains {V : Type} (d : pydict V) (k : string) : bool :=
  match dict_get d k with
  | Some _ => true
  | None => false
  end.

(** [str(d.keys())]. *)
Definition keys_str {V : Type} (d : pydict V) : string :=
  (if ordered d then "odict_keys([" else "dict_keys([")
  ++ join ", " (map (fun kv => py_repr (fst kv)) (items d)) ++ "])".

(** ** Document nodes (benten.editing.listormap) *)

Inductive scalar : Type :=
| PyNone
| PyStr (s : string)
| PyInt (z : Z)
| PyFloat (literal : string)
| PyBool (b : bool).

(** Modelled from the spec: the classes [CWLMap] and [CWLList] of
    benten/editing/listormap.py are missing.  A document node is a mapping
    (ordered key to node), a sequence (ordered list of nodes) or a scalar
    (string, number, boolean, null); every mapping and sequence carries the
    [start_line] and [end_line] of the text it spans.  [obj] is the wrapped
    Python container, as [iter_scalar_or_list] reads it from a [CWLList]. *)
Inductive Node : Type :=
| Scalar (v : scalar)
| CWLMap (start_line end_line : Z) (obj : list (string * Node))
| CWLList (start_line end_line : Z) (obj : list Node).

(** Modelled from the spec: [(v.start_line, v.end_line)] of the missing
    classes; mappings and sequences carry their span, and a scalar, a plain
    Python value, has no such attribute. *)
Definition line_span (v : Node) : result (Z * Z) :=
  match v with
  | CWLMap s e _ => Ok (s, e)
  | CWLList s e _ => Ok (s, e)
  | Scalar _ => Raise AttributeError
  end.

(** Modelled from the spec: the key the missing [CWLList] lists an item
    under, its [id] field. *)
Definition item_id (l : Node) : result string :=
  match l with
  | CWLMap _ _ obj =>
      match assoc "id" obj with
      | Some (Scalar (PyStr s)) => Ok s
      | Some _ => Raise TypeError
      | None => Raise KeyError
      end
  | _ => Raise TypeError
  end.

Fixpoint keyed (l : list Node) : result (list (string * Node)) :=
  match l with
  | [] => Ok []
  | x :: rest =>
      k <- item_id x ;;
      kvs <- keyed rest ;;
      Ok ((k, x) :: kvs)
  end.

(** Modelled from the spec: [for k, v in node], the uniform iteration as
    ordered key-value pairs of the missing classes; a mapping yields its
    entries in document order and a sequence synthesizes each key from the
    item's [id] field.  On a Python string the unpacking of a one-character
    item into [k, v] raises [ValueError]; the other scalars are not
    iterable.  The pairs are computed before the loop body runs, which only
    changes which exception is raised when both an item and the body fail. *)
Definition node_items (n : Node) : result (list (string * Node)) :=
  match n with
  | CWLMap _ _ obj => Ok obj
  | CWLList _ _ obj => keyed obj
  | Scalar (PyStr EmptyString) => Ok []
  | Scalar (PyStr _) => Raise ValueError
  | Scalar _ => Raise TypeError
  end.

(** Modelled from the spec: [k in node] for the missing classes, a key of
    the pairs of a mapping or sequence; on a plain Python value it is the
    substring test of a string and a [TypeError] otherwise. *)
Definition node_contains (n : Node) (k : string) : result bool :=
  match n with
  | Scalar (PyStr s) => Ok (str_in k s)
  | Scalar _ => Raise TypeError
  | _ => kvs <- node_items n ;;
         Ok (match assoc k kvs with Some _ => true | None => false end)
  end.

(** Modelled from the spec: [node.get(k, default)] for the missing classes,
    the first pair with key [k]; the default is left to the caller.  Plain
    Python strings, numbers and [None] have no [get]. *)
Definition node_get (n : Node) (k : string) : result (option Node) :=
  match n with
  | Scalar _ => Raise AttributeError
  | _ => kvs <- node_items n ;; Ok (assoc k kvs)
  end.

(** Modelled from the spec: [node[k]] for the missing classes; a plain
    Python string is not indexed by a string and the other scalars are not
    subscriptable. *)
Definition node_getitem (n : Node) (k : string) : result Node :=
  match n with
  | Scalar _ => Raise TypeError
  | _ => kvs <- node_items n ;;
         match assoc k kvs with
         | Some v => Ok v
         | None => Raise KeyError
         end
  end.

(** What a variable holding a sub-process or a section can be: a parsed node
    or the empty plain dictionary [{}] the code uses as a default. *)
Inductive value : Type :=
| VNode (n : Node)
| VEmptyDict.

(** [obj.get(k, {})]. *)
Definition value_get (obj : value) (k : string) : result value :=
  match obj with
  | VEmptyDict => Ok VEmptyDict
  | VNode n =>
      r <- node_get n k ;;
      Ok (match r with Some v => VNode v | None => VEmptyDict end)
  end.

(** [for k, v in obj] where [obj] came from [.get(k, {})]: iterating the
    plain [{}] yields nothing. *)
Definition value_items (obj : value) : result (list (string * Node)) :=
  match obj with
  | VEmptyDict => Ok []
  | VNode n => node_items n
  end.

(** [for k, v in node.get(name, {})], the loop header the model shares. *)
Definition get_items (node : Node) (name : string) : result (list (string * Node)) :=
  section <- value_get (VNode node) name ;;
  value_items section.

(** [iter_lom]: the [dict] branch yields the items of the plain dictionary
    [{}], none, and the last branch iterates a list-or-map node as pairs.
    No plain Python list reaches it: its argument is a parsed node or the
    [{}] default. *)
Definition iter_lom (obj : value) : result (list (string * Node)) :=
  match obj with
  | VEmptyDict => Ok []
  | VNode n => node_items n
  end.

(** [iter_scalar_or_list]. *)
Definition iter_scalar_or_list (obj : Node) : list Node :=
  match obj with
  | CWLList _ _ l => l
  | _ => [obj]
  end.

(** ** Ports, steps and connections *)

Definition opt_str_eqb (a b : option string) : bool :=
  match a, b with
  | None, None => true
  | Some x, Some y => String.eqb x y
  | _, _ => false
  end.

Module Port.

Record t : Type := mk {
  node_id : option string;
  port_id : string;
  line : option (Z * Z)
}.

Definition __eq__ (self other : t) : bool :=
  opt_str_eqb (node_id self) (node_id other) && String.eqb (port_id self) (port_id other).

Definition __repr__ (self : t) : string :=
  match node_id self with
  | Some n => n ++ "." ++ port_id self
  | None => port_id self
  end.

End Port.

(** What the model reads from outside the document: the file system behind
    [pathlib], and the parser and classes of the missing
    benten/editing/listormap.py. *)
Record Env : Type := {
  (** [pathlib.Path(root.parent, run).resolve()], from [root] and [run]. *)
  resolve_run : string -> string -> string;
  (** [path.open("r").read()]. *)
  open_read : string -> result string;
  (** [path.as_uri()]. *)
  as_uri : string -> string;
  parse_cwl_to_dict : string -> result Node;
  (** [str(obj)] of a [CWLMap] or [CWLList] object. *)
  obj_str : Node -> string
}.

Module Step.

Record t : Type := mk {
  line : Z * Z;
  id : string;
  available_sinks : pydict Port.t;
  available_sources : pydict Port.t
}.

Definition __repr__ (self : t) : string :=
  keys_str (available_sinks self) ++ "->" ++ id self ++ "->"
  ++ keys_str (available_sources self).

(** [[(k, Port(node_id=step_id, port_id=k)) for k, v in ...]]. *)
Definition interface_ports (step_id : string) (kvs : list (string * Node))
  : list (string * Port.t) :=
  map (fun kv => (fst kv, Port.mk (Some step_id) (fst kv) None)) kvs.

Definition not_found_msg (env : Env) (run sub_p_path : string) : string :=
  "Could not find sub workflow: " ++ run ++ " (resolved to " ++ as_uri env sub_p_path ++ ")".

Definition from_doc (env : Env) (step_id : string) (line : Z * Z) (step_doc : Node)
    (root : string) (wf_error_list : list string) : result (t * list string) :=
  no_run <- match step_doc with
            | Scalar PyNone => Ok true
            | _ => b <- node_contains step_doc "run" ;; Ok (negb b)
            end ;;
  if (no_run : bool) then Ok (mk line step_id empty_dict empty_dict, wf_error_list)
  else
    run <- node_getitem step_doc "run" ;;
    '(sub_process, errors) <-
      match run with
      | Scalar (PyStr r) =>
          let sub_p_path := resolve_run env root r in
          match (text <- open_read env sub_p_path ;; parse_cwl_to_dict env text) with
          | Ok n => Ok (VNode n, wf_error_list)
          | Raise FileNotFoundError =>
              Ok (VEmptyDict, wf_error_list ++ [not_found_msg env r sub_p_path])
          | Raise e => Raise e
          end
      | _ => Ok (VNode run, wf_error_list)
      end ;;
    ins <- value_get sub_process "inputs" ;;
    in_items <- iter_lom ins ;;
    let sinks := OrderedDict (interface_ports step_id in_items) in
    outs <- value_get sub_process "outputs" ;;
    out_items <- iter_lom outs ;;
    let sources := OrderedDict (interface_ports step_id out_items) in
    Ok (mk line step_id sinks sources, errors).

End Step.

Module Connection.

Record t : Type := mk {
  src : Port.t;
  dst : Port.t;
  line : option (Z * Z)
}.

Definition __eq__ (self other : t) : bool :=
  Port.__eq__ (src self) (src other) && Port.__eq__ (dst self) (dst other).

Definition __repr__ (self : t) : string :=
  Port.__repr__ (src self) ++ " -> " ++ Port.__repr__ (dst self).

End Connection.

(** Modelled from the spec: the class [CwlDoc] of benten/editing/cwldoc.py is
    missing; the model reads its parsed root node and the path of the
    document. *)
Record CwlDoc : Type := {
  cwl_dict : Node;
  path : string
}.

Module Workflow.

Record t : Type := mk {
  cwl_doc : CwlDoc;
  problems_with_wf : list string;
  inputs : pydict Port.t;
  outputs : pydict Port.t;
  steps : pydict Step.t;
  connections : list Connection.t
}.

Definition required_sections : list string :=
  ["cwlVersion"; "class"; "inputs"; "outputs"; "steps"].

Definition missing_msg (sec : string) : string := "'" ++ sec ++ "' missing".

(** The loop over [required_sections]. *)
Fixpoint check_sections (cwl_dict : Node) (secs : list string) (problems : list string)
  : result (list string) :=
  match secs with
  | [] => Ok problems
  | sec :: rest =>
      present <- node_contains cwl_dict sec ;;
      check_sections cwl_dict rest
        (if (present : bool) then problems else problems ++ [missing_msg sec])
  end.

(** [[(k, Port(node_id=None, port_id=k, line=(v.start_line, v.end_line)))
    for k, v in ...]]. *)
Fixpoint wf_ports (kvs : list (string * Node)) : result (list (string * Port.t)) :=
  match kvs with
  | [] => Ok []
  | (k, v) :: rest =>
      ln <- line_span v ;;
      ports <- wf_ports rest ;;
      Ok ((k, Port.mk None k (Some ln)) :: ports)
  end.

(** The generator of [(k, Step.from_doc(...))] pairs; [from_doc] appends
    to the shared problem list. *)
Fixpoint build_steps (env : Env) (root : string) (kvs : list (string * Node))
    (problems : list string) : result (list (string * Step.t) * list string) :=
  match kvs with
  | [] => Ok ([], problems)
  | (k, v) :: rest =>
      ln <- line_span v ;;
      '(st, problems1) <- Step.from_doc env k ln v root problems ;;
      '(sts, problems2) <- build_steps env root rest problems1 ;;
      Ok ((k, st) :: sts, problems2)
  end.

Definition _get_step_source (self : t) (_src : Node) : result Port.t :=
  match _src with
  | Scalar (PyStr s) =>
      match split_slash s with
      | [src_step_id; src_port_id] =>
          match dict_get (steps self) src_step_id with
          | None => Raise (WFConnectionError ("No such source step " ++ src_step_id))
          | Some st =>
              match dict_get (Step.available_sources st) src_port_id with
              | None =>
                  Raise (WFConnectionError
                           ("No such source port " ++ src_step_id ++ "." ++ src_port_id))
              | Some p => Ok p
              end
          end
      | _ => Raise ValueError
      end
  | _ => Raise AttributeError
  end.

Definition _get_source (env : Env) (self : t) (_src : Node) : result Port.t :=
  match _src with
  | Scalar PyNone => Raise (WFConnectionError "No source specified")
  | Scalar (PyStr EmptyString) => Raise (WFConnectionError "No source specified")
  | Scalar (PyStr s) =>
      if str_in "/" s then _get_step_source self _src
      else match dict_get (inputs self) s with
           | None => Raise (WFConnectionError ("No such WF input " ++ s))
           | Some p => Ok p
           end
  | Scalar _ => Raise TypeError
  | _ =>
      slash <- node_contains _src "/" ;;
      if (slash : bool) then _get_step_source self _src
      else Raise (WFConnectionError ("No such WF input " ++ obj_str env _src))
  end.

(** The innermost loop of both passes of [_list_connections], over the
    references of one sink; [label] is what the diagnostic starts with:
    [format(this_step) + "." + step_sink_id] in the first pass and
    [sink.port_id] in the second. *)
Fixpoint connect_sources (env : Env) (self : t) (label : string) (sink : Port.t)
    (srcs : list Node) (connections : list Connection.t) (problems : list string)
  : result (list Connection.t * list string) :=
  match srcs with
  | [] => Ok (connections, problems)
  | _src :: rest =>
      match _get_source env self _src with
      | Ok source =>
          connect_sources env self label sink rest
            (connections ++ [Connection.mk source sink (Port.line source)]) problems
      | Raise (WFConnectionError e) =>
          connect_sources env self label sink rest connections
            (problems ++ [(label ++ ": " ++ e)%string])
      | Raise e => Raise e
      end
  end.

(** The loop over [step_doc.get("in", {})]. *)
Fixpoint connect_sinks (env : Env) (self : t) (this_step : Step.t)
    (bindings : list (string * Node)) (connections : list Connection.t)
    (problems : list string) : result (list Connection.t * list string) :=
  match bindings with
  | [] => Ok (connections, problems)
  | (step_sink_id, port_doc) :: rest =>
      match dict_get (Step.available_sinks this_step) step_sink_id with
      | None =>
          connect_sinks env self this_step rest connections
            (problems ++ [("No such sink: " ++ Step.id this_step ++ "." ++ step_sink_id)%string])
      | Some sink =>
          has_source <- node_contains port_doc "source" ;;
          if (has_source : bool) then
            source_doc <- node_getitem port_doc "source" ;;
            '(connections1, problems1) <-
              connect_sources env self (Step.__repr__ this_step ++ "." ++ step_sink_id)
                sink (iter_scalar_or_list source_doc) connections problems ;;
            connect_sinks env self this_step rest connections1 problems1
          else connect_sinks env self this_step rest connections problems
      end
  end.

(** The first pass: connections into steps. *)
Fixpoint connect_steps (env : Env) (self : t) (step_items : list (string * Node))
    (connections : list Connection.t) (problems : list string)
  : result (list Connection.t * list string) :=
  match step_items with
  | [] => Ok (connections, problems)
  | (step_id, step_doc) :: rest =>
      match step_doc with
      | CWLMap _ _ _ =>
          this_step <- match dict_get (steps self) step_id with
                       | Some st => Ok st
                       | None => Raise KeyError
                       end ;;
          bindings <- get_items step_doc "in" ;;
          '(connections1, problems1) <-
            connect_sinks env self this_step bindings connections problems ;;
          connect_steps env self rest connections1 problems1
      | _ =>
          connect_steps env self rest connections
            (problems ++ [("Invalid step: " ++ step_id)%string])
      end
  end.

(** The second pass: connections to workflow outputs. *)
Fixpoint connect_outputs (env : Env) (self : t) (out_items : list (string * Node))
    (connections : list Connection.t) (problems : list string)
  : result (list Connection.t * list string) :=
  match out_items with
  | [] => Ok (connections, problems)
  | (out_id, out_doc) :: rest =>
      sink <- match dict_get (outputs self) out_id with
              | Some p => Ok p
              | None => Raise KeyError
              end ;;
      has_source <- node_contains out_doc "outputSource" ;;
      if (has_source : bool) then
        source_doc <- node_getitem out_doc "outputSource" ;;
        '(connections1, problems1) <-
          connect_sources env self (Port.port_id sink) sink
            (iter_scalar_or_list source_doc) connections problems ;;
        connect_outputs env self rest connections1 problems1
      else connect_outputs env self rest connections problems
  end.

(** Returns the connections and the problem list it has appended to. *)
Definition _list_connections (env : Env) (self : t)
  : result (list Connection.t * list string) :=
  let cwl_dict := cwl_dict (cwl_doc self) in
  step_items <- get_items cwl_dict "steps" ;;
  '(connections1, problems1) <-
    connect_steps env self step_items [] (problems_with_wf self) ;;
  out_items <- get_items cwl_dict "outputs" ;;
  connect_outputs env self out_items connections1 problems1.

(** [Workflow(cwl_doc)]; [None] stands for a false [cwl_doc], replaced by
    [{}], which has no attribute [cwl_dict]. *)
Definition __init__ (env : Env) (cwl_doc : option CwlDoc) : result t :=
  match cwl_doc with
  | None => Raise AttributeError
  | Some doc =>
      let cwl_dict := cwl_dict doc in
      problems0 <- check_sections cwl_dict required_sections [] ;;
      in_items <- get_items cwl_dict "inputs" ;;
      in_ports <- wf_ports in_items ;;
      out_items <- get_items cwl_dict "outputs" ;;
      out_ports <- wf_ports out_items ;;
      step_items <- get_items cwl_dict "steps" ;;
      '(sts, problems1) <- build_steps env (path doc) step_items problems0 ;;
      let self := mk doc problems1 (OrderedDict in_ports) (OrderedDict out_ports)
                    (OrderedDict sts) [] in
      '(conns, problems2) <- _list_connections env self ;;
      Ok (mk doc problems2 (OrderedDict in_ports) (OrderedDict out_ports)
            (OrderedDict sts) conns)
  end.

Fixpoint find_in (connections : list Connection.t) (conn : Connection.t)
  : option (Z * Z) :=
  match connections with
  | [] => None
  | existing_conn :: rest =>
      if Connection.__eq__ existing_conn conn then Connection.line existing_conn
      else find_in rest conn
  end.

Definition find_connection (self : t) (conn : Connection.t) : option (Z * Z) :=
  find_in (connections self) conn.

End Workflow.

(** ** Predicates used by the statements *)

(** No two positions of the list hold connections that [==] makes equal. *)
Definition no_parallel_edges (connections : list Connection.t) : Prop :=
  forall i j ci cj,
    nth_error connections i = Some ci ->
    nth_error connections j = Some cj ->
    Connection.__eq__ ci cj = true ->
    i = j.

(** The port is one of the workflow inputs, or it belongs to a step and has
    no line. *)
Definition source_port_ok (self : Workflow.t) (p : Port.t) : Prop :=
  (Port.node_id p = None /\ (exists ln, Port.line p = Some ln)
   /\ dict_get (Workflow.inputs self) (Port.port_id p) = Some p)
  \/ (exists sid, p = Port.mk (Some sid) (Port.port_id p) None).

(** The port is one of the workflow outputs, or it belongs to a step and has
    no line. *)
Definition sink_port_ok (self : Workflow.t) (p : Port.t) : Prop :=
  (Port.node_id p = None
   /\ dict_get (Workflow.outputs self) (Port.port_id p) = Some p)
  \/ (exists sid, p = Port.mk (Some sid) (Port.port_id p) None).

Definition connection_ok (self : Workflow.t) (c : Connection.t) : Prop :=
  Connection.line c = Port.line (Connection.src c)
  /\ source_port_ok self (Connection.src c)
  /\ sink_port_ok self (Connection.dst c).

(** Every port of the step names the step and its own key and has no line. *)
Definition step_ports_ok (step_id : string) (st : Step.t) : Prop :=
  Step.id st = step_id
  /\ (forall k p, In (k, p) (items (Step.available_sinks st)) ->
                  p = Port.mk (Some step_id) k None)
  /\ (forall k p, In (k, p) (items (Step.available_sources st)) ->
                  p = Port.mk (Some step_id) k None).

(** What the two passes of [_list_connections] rely on in [self]. *)
Definition ports_ok (self : Workflow.t) : Prop :=
  (forall k p, dict_get (Workflow.inputs self) k = Some p ->
               exists ln, p = Port.mk None k (Some ln))
  /\ (forall k p, dict_get (Workflow.outputs self) k = Some p ->
                  Port.node_id p = None /\ Port.port_id p = k)
  /\ (forall sid st, dict_get (Workflow.steps self) sid = Some st ->
                     step_ports_ok sid st).

Definition has_key {V : Type} (k : string) (d : list (string * V)) : bool :=
  match assoc k d with
  | Some _ => true
  | None => false
  end.

(** The entries of a section are mappings or sequences, which carry lines. *)
Definition carries_lines (kvs : list (string * Node)) : Prop :=
  Forall (fun kv => exists ln, line_span (snd kv) = Ok ln) kvs.

(** The [outputs] section is absent, or a mapping whose entries are mappings
    without an [outputSource]. *)
Definition no_output_sources (top : list (string * Node)) : Prop :=
  match assoc "outputs" top with
  | None => True
  | Some (CWLMap _ _ outs) =>
      Forall (fun kv => exists s e o, snd kv = CWLMap s e o
                                      /\ assoc "outputSource" o = None) outs
  | Some _ => False
  end.

(** ** Example documents *)

(** A file system with no file in it. *)
Definition no_files : Env := {|
  resolve_run := fun root run => ("/wf/" ++ run)%string;
  open_read := fun _ => Raise FileNotFoundError;
  as_uri := fun p => ("file://" ++ p)%string;
  parse_cwl_to_dict := fun _ => Ok (CWLMap 0 0 []);
  obj_str := fun _ => "<object>"
|}.

Definition str (s : string) : Node := Scalar (PyStr s).

(** [[
0  cwlVersion: v1.0
1  class: Workflow
2  inputs:
3    x: {type: string}
4  outputs: ...
5  steps:
6    A:
7      run:
8        inputs: {in1: {type: string}}
9        outputs: {out1: {type: string}}
10     in:
11       in1: {source: ...}
]] *)
Definition step_A_entries (source : Node) : list (string * Node) :=
  [("run", CWLMap 7 9
             [("inputs", CWLMap 8 8 [("in1", CWLMap 8 8 [("type", str "string")])]);
              ("outputs", CWLMap 9 9 [("out1", CWLMap 9 9 [("type", str "string")])])]);
   ("in", CWLMap 10 11 [("in1", CWLMap 11 11 [("source", source)])])].

Definition step_A (source : Node) : Node := CWLMap 6 11 (step_A_entries source).

Definition top_with (source : Node) (outs : list (string * Node)) : list (string * Node) :=
  [("cwlVersion", str "v1.0");
   ("class", str "Workflow");
   ("inputs", CWLMap 2 3 [("x", CWLMap 3 3 [("type", str "string")])]);
   ("outputs", CWLMap 4 4 outs);
   ("steps", CWLMap 5 11 [("A", step_A source)])].

Definition doc_with (source : Node) (outs : list (string * Node)) : CwlDoc :=
  {| cwl_dict := CWLMap 0 11 (top_with source outs); path := "/wf/main.cwl" |}.

Definition port_x : Port.t := Port.mk None "x" (Some (3, 3)%Z).
Definition port_A_in1 : Port.t := Port.mk (Some "A") "in1" None.
Definition port_A_out1 : Port.t := Port.mk (Some "A") "out1" None.

(** The step built for [A]. *)
Definition built_step_A : Step.t :=
  Step.mk (6, 11)%Z "A" (mkdict true [("in1", port_A_in1)])
    (mkdict true [("out1", port_A_out1)]).

(** The workflow built from [doc_with source []], up to its connections and
    problems. *)
Definition wf_with (source : Node) (problems : list string)
    (connections : list Connection.t) : Workflow.t :=
  Workflow.mk (doc_with source []) problems
    (mkdict true [("x", port_x)])
    (mkdict true [])
    (mkdict true [("A", built_step_A)])
    connections.

(** [[
0  cwlVersion: v1.0
1  class: Workflow
2  inputs: {}
3  steps:
4    A: {run: sub.cwl}
5    B: {run: {inputs: {}, outputs: {}}}
]] *)
Definition no_outputs_doc : CwlDoc :=
  {| cwl_dict :=
       CWLMap 0 5
         [("cwlVersion", str "v1.0");
          ("class", str "Workflow");
          ("inputs", CWLMap 2 2 []);
          ("steps", CWLMap 3 5
             [("A", CWLMap 4 4 [("run", str "sub.cwl")]);
              ("B", CWLMap 5 5 [("run", CWLMap 5 5 [("inputs", CWLMap 5 5 []);
                                                    ("outputs", CWLMap 5 5 [])])])])];
     path := "/wf/main.cwl" |}.

(** Every diagnostic appended after the check of the required sections
    holds a colon; the messages of that check do not. *)
Definition has_colon (d : string) : Prop := str_in ":" d = true.

(** [problems'] extends [problems] with diagnostics that hold a colon. *)
Definition extends_with_colons (problems problems' : list string) : Prop :=
  exists extra, problems' = problems ++ extra /\ Forall has_colon extra.

(** What a loop of [_list_connections] does to the two lists it appends to:
    the new connections join ports of [self], the new problems hold a
    colon. *)
Definition appends_ok (self : Workflow.t)
    (connections connections' : list Connection.t)
    (problems problems' : list string) : Prop :=
  (exists new, connections' = connections ++ new /\ Forall (connection_ok self) new)
  /\ extends_with_colons problems problems'.

Definition conn_x_in1 : Connection.t := Connection.mk port_x port_A_in1 (Some (3, 3)%Z).
Definition conn_out1_in1 : Connection.t := Connection.mk port_A_out1 port_A_in1 None.

(** [source: [x, A/out1]] and [source: [x, x]]. *)
Definition two_sources : Node := CWLList 11 11 [str "x"; str "A/out1"].
Definition same_source_twice : Node := CWLList 11 11 [str "x"; str "x"].

Definition wf_two_sources : Workflow.t :=
  wf_with two_sources [] [conn_x_in1; conn_out1_in1].
Definition wf_same_source_twice : Workflow.t :=
  wf_with same_source_twice [] [conn_x_in1; conn_x_in1].

(** The required sections that are not keys of the top-level mapping, in the
    order of [required_sections]. *)
Definition missing_sections (top : list (string * Node)) : list string :=
  filter (fun sec => negb (has_key sec top)) Workflow.required_sections.

Definition empty_ports : pydict Port.t := OrderedDict [].
Definition empty_steps : pydict Step.t := OrderedDict [].

(** The step left by a sub-process file that is not found. *)
Definition degraded_step (step_id : string) (line : Z * Z) : Step.t :=
  Step.mk line step_id (OrderedDict []) (OrderedDict []).

Definition wf_no_outputs : Workflow.t :=
  Workflow.mk no_outputs_doc
    ["'outputs' missing";
     "Could not find sub workflow: sub.cwl (resolved to file:///wf/sub.cwl)"]
    empty_ports empty_ports
    (mkdict true [("A", degraded_step "A" (4, 4)%Z);
                  ("B", Step.mk (5, 5)%Z "B" (OrderedDict []) (OrderedDict []))])
    [].

(** The diagnostic the first pass appends for [in1: {source: y}]. *)
Definition dangling_y_problem : string :=
  "odict_keys(['in1'])->A->odict_keys(['out1']).in1: No such WF input y".

(** ** Predicates of the further properties *)

(** The port is stored in the workflow: as an input or as a source of a
    stored step; as a sink of a stored step; as an output. *)
Definition source_exists (self : Workflow.t) (p : Port.t) : Prop :=
  (exists k, dict_get (Workflow.inputs self) k = Some p)
  \/ (exists sid st k, dict_get (Workflow.steps self) sid = Some st
                       /\ dict_get (Step.available_sources st) k = Some p).

Definition step_sink_exists (self : Workflow.t) (p : Port.t) : Prop :=
  exists sid st k, dict_get (Workflow.steps self) sid = Some st
                   /\ dict_get (Step.available_sinks st) k = Some p.

Definition output_exists (self : Workflow.t) (p : Port.t) : Prop :=
  exists k, dict_get (Workflow.outputs self) k = Some p.

(** The messages [_get_source] and [_get_step_source] put into a
    [WFConnectionError]. *)
Definition resolution_failure (r : string) : Prop :=
  r = "No source specified"
  \/ (exists x, r = ("No such WF input " ++ x)%string)
  \/ (exists a, r = ("No such source step " ++ a)%string)
  \/ (exists a b, r = ("No such source port " ++ a ++ "." ++ b)%string).

(** The diagnostic of [Step.from_doc]. *)
Definition not_found_diag (env : Env) (root : string) (d : string) : Prop :=
  exists run, d = Step.not_found_msg env run (resolve_run env root run).

(** The diagnostics of the first pass of [_list_connections]. *)
Definition step_pass_diag (self : Workflow.t) (d : string) : Prop :=
  (exists k, d = ("Invalid step: " ++ k)%string)
  \/ (exists sid st k,
         dict_get (Workflow.steps self) sid = Some st
         /\ dict_get (Step.available_sinks st) k = None
         /\ d = ("No such sink: " ++ Step.id st ++ "." ++ k)%string)
  \/ (exists sid st k r,
         dict_get (Workflow.steps self) sid = Some st
         /\ dict_contains (Step.available_sinks st) k = true
         /\ resolution_failure r
         /\ d = (Step.__repr__ st ++ "." ++ k ++ ": " ++ r)%string).

(** The diagnostics of the second pass. *)
Definition output_pass_diag (self : Workflow.t) (d : string) : Prop :=
  exists o sink r,
    dict_get (Workflow.outputs self) o = Some sink
    /\ resolution_failure r
    /\ d = (Port.port_id sink ++ ": " ++ r)%string.

(** A connection made by the first pass, and one made by the second. *)
Definition into_step (self : Workflow.t) (c : Connection.t) : Prop :=
  source_exists self (Connection.src c)
  /\ step_sink_exists self (Connection.dst c)
  /\ Connection.line c = Port.line (Connection.src c).

Definition into_output (self : Workflow.t) (c : Connection.t) : Prop :=
  source_exists self (Connection.src c)
  /\ output_exists self (Connection.dst c)
  /\ Connection.line c = Port.line (Connection.src c).

(** What a loop appends: connections satisfying [Pc], problems satisfying
    [Pd]. *)
Definition pass_appends (Pc : Connection.t -> Prop) (Pd : string -> Prop)
    (connections connections' : list Connection.t)
    (problems problems' : list string) : Prop :=
  exists new extra,
    connections' = connections ++ new /\ problems' = problems ++ extra
    /\ Forall Pc new /\ Forall Pd extra.

(** A reference the resolution can handle: [None], or a string that splits
    into at most two parts. *)
Definition ref_ok (r : Node) : Prop :=
  r = Scalar PyNone
  \/ exists s, r = Scalar (PyStr s) /\ (List.length (split_slash s) <= 2)%nat.

(** A mapping whose [field], when present, holds such references. *)
Definition source_field_ok (field : string) (v : Node) : Prop :=
  exists s e o,
    v = CWLMap s e o
    /\ match assoc field o with
       | None => True
       | Some src => Forall ref_ok (iter_scalar_or_list src)
       end.

Definition section_is_map (d : list (string * Node)) (name : string) : Prop :=
  match assoc name d with
  | None => True
  | Some (CWLMap _ _ _) => True
  | Some _ => False
  end.

(** A sub-process: a mapping whose [inputs] and [outputs], when present, are
    mappings. *)
Definition interface_ok (n : Node) : Prop :=
  exists s e rd, n = CWLMap s e rd
                 /\ section_is_map rd "inputs" /\ section_is_map rd "outputs".

(** The [run] of a step is absent, an inline sub-process, or a path to a file
    that is not found or that parses to a sub-process. *)
Definition run_ok (env : Env) (root : string) (sd : list (string * Node)) : Prop :=
  match assoc "run" sd with
  | None => True
  | Some (Scalar (PyStr r)) =>
      match (text <- open_read env (resolve_run env root r) ;;
             parse_cwl_to_dict env text) with
      | Ok n => interface_ok n
      | Raise FileNotFoundError => True
      | Raise _ => False
      end
  | Some n => interface_ok n
  end.

Definition step_ok (env : Env) (root : string) (v : Node) : Prop :=
  exists s e sd,
    v = CWLMap s e sd
    /\ run_ok env root sd
    /\ match assoc "in" sd with
       | None => True
       | Some (CWLMap _ _ bindings) =>
           Forall (fun kv => source_field_ok "source" (snd kv)) bindings
       | Some _ => False
       end.

(** A document of mappings all the way down, with references of at most one
    slash. *)
Definition well_shaped (env : Env) (doc : CwlDoc) : Prop :=
  exists s e top,
    cwl_dict doc = CWLMap s e top
    /\ match assoc "inputs" top with
       | None => True
       | Some (CWLMap _ _ ins) => carries_lines ins
       | Some _ => False
       end
    /\ match assoc "outputs" top with
       | None => True
       | Some (CWLMap _ _ outs) =>
           Forall (fun kv => source_field_ok "outputSource" (snd kv)) outs
       | Some _ => False
       end
    /\ match assoc "steps" top with
       | None => True
       | Some (CWLMap _ _ sts) => Forall (fun kv => step_ok env (path doc) (snd kv)) sts
       | Some _ => False
       end.

(** A file system whose files cannot be opened. *)
Definition locked_files : Env := {|
  resolve_run := fun root run => ("/wf/" ++ run)%string;
  open_read := fun _ => Raise (OtherError "PermissionError");
  as_uri := fun p => ("file://" ++ p)%string;
  parse_cwl_to_dict := fun _ => Ok (CWLMap 0 0 []);
  obj_str := fun _ => "<object>"
|}.

(** A file system with the one file [/wf/sub.cwl], a sub-process with the
    input [a] and the output [b]. *)
Definition sub_process_node : Node :=
  CWLMap 0 3 [("inputs", CWLMap 1 1 [("a", CWLMap 1 1 [])]);
              ("outputs", CWLMap 2 2 [("b", CWLMap 2 2 [])])].

Definition one_file : Env := {|
  resolve_run := fun root run => ("/wf/" ++ run)%string;
  open_read := fun p => if String.eqb p "/wf/sub.cwl" then Ok "sub" else Raise FileNotFoundError;
  as_uri := fun p => ("file://" ++ p)%string;
  parse_cwl_to_dict := fun _ => Ok sub_process_node;
  obj_str := fun _ => "<object>"
|}.

(** The workflow built from [source: [x, A/out1]] and the output
    [o: {outputSource: A/out1}]. *)
Definition output_o : list (string * Node) :=
  [("o", CWLMap 4 4 [("outputSource", str "A/out1")])].

Definition port_o : Port.t := Port.mk None "o" (Some (4, 4)%Z).

Definition wf_with_output : Workflow.t :=
  Workflow.mk (doc_with two_sources output_o) []
    (mkdict true [("x", port_x)])
    (mkdict true [("o", port_o)])
    (mkdict true [("A", built_step_A)])
    [conn_x_in1; conn_out1_in1; Connection.mk port_A_out1 port_o None].

(** The references a finished build can have met: [None], a string that
    splits into at most two parts, or an object of the missing classes;
    never a number or a boolean. *)
Definition ref_accepted (r : Node) : Prop :=
  match r with
  | Scalar PyNone => True
  | Scalar (PyStr s) => (List.length (split_slash s) <= 2)%nat
  | Scalar _ => False
  | _ => True
  end.



(** [source: [a/b/c, x]]: a reference with two slashes, then a declared
    input. *)
Definition slashes_then_x : Node := CWLList 11 11 [str "a/b/c"; str "x"].

(** * Properties *)

(** ** Results *)

Lemma bind_ok {A B : Type} (r : result A) (k : A -> result B) (b : B) :
  bind r k = Ok b -> exists a, r = Ok a /\ k a = Ok b.
Proof.
  destruct r as [a|e]; simpl; intros H.
  - exists a; split; [reflexivity | exact H].
  - discriminate H.
Qed.

(** Splits a hypothesis [x <- r ;; k = Ok b] into [r = Ok x] and [k = Ok b]. *)
Ltac bind_inv H :=
  let a := fresh "a" in
  let Ha := fresh "Hr" in
  apply bind_ok in H; destruct H as [a [Ha H]].

(** ** Strings *)

Lemma prefix_empty (s : string) : String.prefix "" s = true.
Proof. destruct s; reflexivity. Qed.

Lemma prefix_app (s t : string) : String.prefix s (s ++ t) = true.
Proof.
  induction s as [|c s IH]; simpl.
  - apply prefix_empty.
  - destruct (ascii_dec c c) as [_|n]; [exact IH | contradiction n; reflexivity].
Qed.

Lemma str_in_app_r (sub a b : string) :
  str_in sub b = true -> str_in sub (a ++ b) = true.
Proof.
  intros H; induction a as [|c a IH]; simpl.
  - exact H.
  - fold (str_in sub (a ++ b)). rewrite IH. apply orb_true_r.
Qed.

Lemma str_in_self_app (sub b : string) : str_in sub (sub ++ b) = true.
Proof.
  destruct (sub ++ b)%string eqn:E; unfold str_in; fold str_in;
    rewrite <- E, prefix_app; reflexivity.
Qed.

Lemma str_in_mid (a sub b : string) : str_in sub (a ++ sub ++ b) = true.
Proof. apply str_in_app_r, str_in_self_app. Qed.

Lemma str_in_slash_cons (c : ascii) (s : string) :
  str_in "/" (String c s) = Ascii.eqb c "/" || str_in "/" s.
Proof.
  unfold str_in at 1; fold str_in.
  change (String.prefix "/" (String c s))
    with (if ascii_dec "/" c then String.prefix "" s else false).
  destruct (ascii_dec "/" c) as [E|N].
  - subst c. rewrite prefix_empty. reflexivity.
  - destruct (Ascii.eqb_spec c "/"%char) as [E|_]; [congruence | reflexivity].
Qed.

Lemma split_no_slash (s : string) :
  str_in "/" s = false -> split_slash s = [s].
Proof.
  induction s as [|c s IH]; intros H.
  - reflexivity.
  - rewrite str_in_slash_cons in H. apply orb_false_elim in H. destruct H as [Hc Hs].
    simpl. rewrite Hc, (IH Hs). reflexivity.
Qed.

Lemma split_one_slash (a b : string) :
  str_in "/" a = false -> str_in "/" b = false ->
  split_slash (a ++ "/" ++ b) = [a; b].
Proof.
  intros Ha Hb. induction a as [|c a IH].
  - simpl. rewrite (split_no_slash b Hb). reflexivity.
  - rewrite str_in_slash_cons in Ha. apply orb_false_elim in Ha. destruct Ha as [Hc Ha].
    simpl. rewrite Hc. simpl in IH. rewrite (IH Ha). reflexivity.
Qed.

(** ** Dictionaries *)

Section Dict.
Context {V : Type}.
Implicit Types (d pairs : list (string * V)) (k : string) (v : V).

Lemma assoc_In k d v : assoc k d = Some v -> In (k, v) d.
Proof.
  induction d as [|[k' v'] d IH]; simpl; [discriminate|].
  destruct (String.eqb_spec k' k) as [E|N]; intros H.
  - injection H as ->. subst. left; reflexivity.
  - right; apply IH, H.
Qed.

Lemma assoc_key k d : In k (map fst d) -> exists v, assoc k d = Some v.
Proof.
  induction d as [|[k' v'] d IH]; simpl; [contradiction|].
  destruct (String.eqb_spec k' k) as [E|N]; intros H.
  - eauto.
  - destruct H as [H|H]; [contradiction | auto].
Qed.

Lemma In_od_set k v d k' v' :
  In (k', v') (od_set k v d) -> (k', v') = (k, v) \/ In (k', v') d.
Proof.
  induction d as [|[k0 v0] d IH]; simpl.
  - intros [H|[]]; left; symmetry; exact H.
  - destruct (String.eqb_spec k0 k) as [E|N]; simpl.
    + intros [H|H]; [left; subst; symmetry; exact H | right; right; exact H].
    + intros [H|H]; [right; left; exact H|].
      destruct (IH H) as [H'|H']; [left; exact H' | right; right; exact H'].
Qed.

Lemma keys_od_set k v d k' :
  In k' (map fst (od_set k v d)) <-> k' = k \/ In k' (map fst d).
Proof.
  induction d as [|[k0 v0] d IH]; simpl.
  - intuition.
  - destruct (String.eqb_spec k0 k) as [E|N]; simpl.
    + subst. intuition.
    + rewrite IH. intuition.
Qed.

Lemma In_fold_od_set pairs d k v :
  In (k, v) (fold_left od_step pairs d) -> In (k, v) pairs \/ In (k, v) d.
Proof.
  revert d; induction pairs as [|[k0 v0] pairs IH]; simpl; intros d H.
  - right; exact H.
  - destruct (IH _ H) as [H'|H']; [left; right; exact H'|].
    unfold od_step in H'; simpl in H'. apply In_od_set in H'.
    destruct H' as [H'|H']; [left; left; symmetry; exact H' | right; exact H'].
Qed.

Lemma keys_fold_od_set pairs d k :
  In k (map fst (fold_left od_step pairs d)) <-> In k (map fst pairs) \/ In k (map fst d).
Proof.
  revert d; induction pairs as [|[k0 v0] pairs IH]; simpl; intros d.
  - intuition.
  - rewrite IH. unfold od_step; simpl. rewrite keys_od_set. intuition.
Qed.

Lemma In_items_OrderedDict pairs k v :
  In (k, v) (items (OrderedDict pairs)) -> In (k, v) pairs.
Proof.
  unfold OrderedDict; simpl. intros H.
  apply In_fold_od_set in H. destruct H as [H|[]]. exact H.
Qed.

Lemma OrderedDict_get_In pairs k v :
  dict_get (OrderedDict pairs) k = Some v -> In (k, v) pairs.
Proof. intros H. apply In_items_OrderedDict, assoc_In, H. Qed.

Lemma OrderedDict_get_key pairs k :
  In k (map fst pairs) -> exists v, dict_get (OrderedDict pairs) k = Some v.
Proof.
  intros H. apply assoc_key. unfold OrderedDict; simpl.
  apply keys_fold_od_set. left; exact H.
Qed.

Lemma NoDup_keys_unique pairs k v v' :
  NoDup (map fst pairs) -> In (k, v) pairs -> In (k, v') pairs -> v = v'.
Proof.
  induction pairs as [|[k0 v0] pairs IH]; simpl; [contradiction|].
  intros ND H1 H2. inversion ND as [|? ? Hn ND']; subst.
  destruct H1 as [H1|H1], H2 as [H2|H2].
  - congruence.
  - injection H1 as -> ->. exfalso; apply Hn.
    change k with (fst (k, v')). apply in_map, H2.
  - injection H2 as -> ->. exfalso; apply Hn.
    change k with (fst (k, v)). apply in_map, H1.
  - apply IH; assumption.
Qed.

Lemma OrderedDict_get_NoDup pairs k v :
  NoDup (map fst pairs) -> In (k, v) pairs ->
  dict_get (OrderedDict pairs) k = Some v.
Proof.
  intros ND H.
  destruct (OrderedDict_get_key pairs k) as [v' Hv'].
  - change k with (fst (k, v)). apply in_map, H.
  - rewrite Hv'. f_equal. symmetry.
    apply (NoDup_keys_unique pairs k v v' ND H), OrderedDict_get_In, Hv'.
Qed.

End Dict.

(** ** Diagnostics only accumulate *)

Lemma extends_refl (p : list string) : extends_with_colons p p.
Proof. exists []. split; [symmetry; apply app_nil_r | constructor]. Qed.

Lemma extends_trans (p q r : list string) :
  extends_with_colons p q -> extends_with_colons q r -> extends_with_colons p r.
Proof.
  intros [e1 [-> H1]] [e2 [-> H2]]. exists (e1 ++ e2). split.
  - symmetry; apply app_assoc.
  - apply Forall_app; split; assumption.
Qed.

Lemma extends_snoc (p : list string) (d : string) :
  has_colon d -> extends_with_colons p (p ++ [d]).
Proof. intros H. exists [d]. split; [reflexivity | constructor; [exact H | constructor]]. Qed.

Lemma extends_In (p q : list string) (d : string) :
  extends_with_colons p q -> In d p -> In d q.
Proof. intros [e [-> _]] H. apply in_or_app; left; exact H. Qed.

Lemma has_colon_label (label e : string) : has_colon (label ++ ": " ++ e).
Proof. apply (str_in_mid label ":" (" " ++ e)). Qed.

(** ** Ports of the workflow and of its steps *)

Lemma wf_ports_shape (kvs : list (string * Node)) (ports : list (string * Port.t)) :
  Workflow.wf_ports kvs = Ok ports ->
  map fst ports = map fst kvs
  /\ forall k p, In (k, p) ports -> exists ln, p = Port.mk None k (Some ln).
Proof.
  revert ports; induction kvs as [|[k v] kvs IH]; simpl; intros ports H.
  - injection H as <-. split; [reflexivity | intros ? ? []].
  - bind_inv H. bind_inv H. injection H as <-.
    destruct (IH _ Hr0) as [Hk Hp]. split.
    + simpl. f_equal. exact Hk.
    + intros k' p [E|HIn].
      * injection E as <- <-. eauto.
      * eauto.
Qed.

Lemma wf_ports_total (kvs : list (string * Node)) :
  carries_lines kvs -> exists ports, Workflow.wf_ports kvs = Ok ports.
Proof.
  induction 1 as [|[k v] kvs [ln Hln] _ [ports IH]]; simpl.
  - eauto.
  - simpl in Hln. rewrite Hln, IH. simpl. eauto.
Qed.

Lemma interface_ports_In (step_id : string) (kvs : list (string * Node)) k p :
  In (k, p) (Step.interface_ports step_id kvs) -> p = Port.mk (Some step_id) k None.
Proof.
  unfold Step.interface_ports. intros H. apply in_map_iff in H.
  destruct H as [[k' v] [E _]]. simpl in E. injection E as <- <-. reflexivity.
Qed.

Lemma from_doc_ok env step_id line step_doc root errs st errs' :
  Step.from_doc env step_id line step_doc root errs = Ok (st, errs') ->
  step_ports_ok step_id st /\ Step.line st = line /\ extends_with_colons errs errs'.
Proof.
  unfold Step.from_doc. intros H. bind_inv H. destruct a.
  - injection H as <- <-. repeat split; try (intros ? ? []). apply extends_refl.
  - bind_inv H. bind_inv H. destruct a0 as [sub_process errors].
    bind_inv H. bind_inv H. bind_inv H. bind_inv H. injection H as <- <-.
    repeat split; simpl.
    + intros k p Hin. apply In_items_OrderedDict in Hin.
      eapply interface_ports_In, Hin.
    + intros k p Hin. apply In_items_OrderedDict in Hin.
      eapply interface_ports_In, Hin.
    + clear - Hr1. destruct a as [[| r | | |]| |];
        try (injection Hr1 as _ <-; apply extends_refl).
      destruct (bind _ _) as [n|[]]; try discriminate;
        injection Hr1 as _ <-; [apply extends_refl|].
      apply extends_snoc. reflexivity.
Qed.

Lemma build_steps_ok env root kvs problems sts problems' :
  Workflow.build_steps env root kvs problems = Ok (sts, problems') ->
  map fst sts = map fst kvs
  /\ (forall k st, In (k, st) sts -> step_ports_ok k st)
  /\ extends_with_colons problems problems'.
Proof.
  revert problems sts problems'.
  induction kvs as [|[k v] kvs IH]; simpl; intros problems sts problems' H.
  - injection H as <- <-.
    split; [reflexivity | split; [intros ? ? [] | apply extends_refl]].
  - bind_inv H. bind_inv H. destruct a0 as [st problems1].
    bind_inv H. destruct a0 as [sts' problems2]. injection H as <- <-.
    apply from_doc_ok in Hr0. destruct Hr0 as [Hst [_ He1]].
    apply IH in Hr1. destruct Hr1 as [Hk [Hs He2]].
    split; [|split].
    + simpl. f_equal. exact Hk.
    + intros k' st' [E|Hin]; [injection E as <- <-; exact Hst | apply Hs, Hin].
    + eapply extends_trans; eassumption.
Qed.

(** ** Resolved sources are ports of the workflow *)

Lemma get_step_source_ok self _src p :
  ports_ok self ->
  Workflow._get_step_source self _src = Ok p ->
  exists sid, p = Port.mk (Some sid) (Port.port_id p) None.
Proof.
  intros [_ [_ Hsteps]]. unfold Workflow._get_step_source.
  destruct _src as [[| s | | |]| |]; try discriminate.
  destruct (split_slash s) as [|a [|b [|? ?]]]; try discriminate.
  destruct (dict_get (Workflow.steps self) a) as [st|] eqn:Hst; [|discriminate].
  destruct (dict_get (Step.available_sources st) b) as [q|] eqn:Hq; [|discriminate].
  intros H; injection H as <-.
  destruct (Hsteps _ _ Hst) as [_ [_ Hsrc]].
  rewrite (Hsrc b q (assoc_In _ _ _ Hq)). simpl. eauto.
Qed.

Lemma get_source_ok env self _src p :
  ports_ok self ->
  Workflow._get_source env self _src = Ok p ->
  source_port_ok self p.
Proof.
  intros Hok. unfold Workflow._get_source.
  destruct _src as [[| s | | |]| s e obj | s e obj]; try discriminate.
  - destruct s as [|c s]; [discriminate|].
    destruct (str_in "/" (String c s)).
    + intros H. right. eapply get_step_source_ok; eassumption.
    + destruct (dict_get (Workflow.inputs self) (String c s)) as [q|] eqn:Hq;
        [|discriminate].
      intros H; injection H as <-. left.
      destruct Hok as [Hin _]. destruct (Hin _ _ Hq) as [ln ->]. simpl.
      split; [reflexivity | split; [eauto | exact Hq]].
  - intros H. bind_inv H. destruct a; discriminate.
  - intros H. bind_inv H. destruct a; discriminate.
Qed.

(** ** The loops of [_list_connections] *)

Lemma appends_refl self connections problems :
  appends_ok self connections connections problems problems.
Proof.
  split; [|apply extends_refl].
  exists []. split; [symmetry; apply app_nil_r | constructor].
Qed.

Lemma appends_trans self c1 c2 c3 p1 p2 p3 :
  appends_ok self c1 c2 p1 p2 -> appends_ok self c2 c3 p2 p3 ->
  appends_ok self c1 c3 p1 p3.
Proof.
  intros [[n1 [-> H1]] E1] [[n2 [-> H2]] E2]. split.
  - exists (n1 ++ n2). split; [symmetry; apply app_assoc|].
    apply Forall_app; split; assumption.
  - eapply extends_trans; eassumption.
Qed.

Lemma appends_problem self connections problems d :
  has_colon d -> appends_ok self connections connections problems (problems ++ [d]).
Proof.
  intros H. split; [|apply extends_snoc, H].
  exists []. split; [symmetry; apply app_nil_r | constructor].
Qed.

Lemma appends_connection self connections problems c :
  connection_ok self c ->
  appends_ok self connections (connections ++ [c]) problems problems.
Proof.
  intros H. split; [|apply extends_refl].
  exists [c]. split; [reflexivity | constructor; [exact H | constructor]].
Qed.

Lemma connect_sources_ok env self label sink srcs connections problems c' p' :
  ports_ok self -> sink_port_ok self sink ->
  Workflow.connect_sources env self label sink srcs connections problems = Ok (c', p') ->
  appends_ok self connections c' problems p'.
Proof.
  intros Hok Hsink. revert connections problems.
  induction srcs as [|_src srcs IH]; simpl; intros connections problems H.
  - injection H as <- <-. apply appends_refl.
  - destruct (Workflow._get_source env self _src) as [source|e] eqn:Hsrc.
    + eapply appends_trans; [|apply IH, H].
      apply appends_connection. repeat split; simpl; try assumption.
      eapply get_source_ok; eassumption.
    + destruct e; try discriminate.
      eapply appends_trans; [|apply IH, H].
      apply appends_problem, has_colon_label.
Qed.

Lemma connect_sinks_ok env self sid this_step bindings connections problems c' p' :
  ports_ok self -> step_ports_ok sid this_step ->
  Workflow.connect_sinks env self this_step bindings connections problems = Ok (c', p') ->
  appends_ok self connections c' problems p'.
Proof.
  intros Hok Hstep. revert connections problems.
  induction bindings as [|[step_sink_id port_doc] bindings IH]; simpl;
    intros connections problems H.
  - injection H as <- <-. apply appends_refl.
  - destruct (dict_get (Step.available_sinks this_step) step_sink_id) as [sink|] eqn:Hs.
    + bind_inv H. destruct a.
      * bind_inv H. bind_inv H. destruct a0 as [c1 p1].
        eapply appends_trans; [|apply IH, H].
        eapply connect_sources_ok; [exact Hok| |eassumption].
        right. destruct Hstep as [_ [Hsinks _]].
        rewrite (Hsinks _ _ (assoc_In _ _ _ Hs)). simpl. eauto.
      * apply IH, H.
    + eapply appends_trans; [|apply IH, H].
      apply appends_problem. reflexivity.
Qed.

Lemma connect_steps_ok env self step_items connections problems c' p' :
  ports_ok self ->
  Workflow.connect_steps env self step_items connections problems = Ok (c', p') ->
  appends_ok self connections c' problems p'.
Proof.
  intros Hok. revert connections problems.
  induction step_items as [|[step_id step_doc] step_items IH]; simpl;
    intros connections problems H.
  - injection H as <- <-. apply appends_refl.
  - destruct step_doc as [v | s e obj | s e obj].
    + eapply appends_trans; [|apply IH, H]. apply appends_problem. reflexivity.
    + bind_inv H. bind_inv H. bind_inv H. destruct a1 as [c1 p1].
      eapply appends_trans; [|apply IH, H].
      destruct (dict_get (Workflow.steps self) step_id) as [st|] eqn:Hst;
        [|discriminate].
      injection Hr as <-.
      eapply connect_sinks_ok; [exact Hok| |eassumption].
      destruct Hok as [_ [_ Hsteps]]. apply Hsteps, Hst.
    + eapply appends_trans; [|apply IH, H]. apply appends_problem. reflexivity.
Qed.

Lemma connect_outputs_ok env self out_items connections problems c' p' :
  ports_ok self ->
  Workflow.connect_outputs env self out_items connections problems = Ok (c', p') ->
  appends_ok self connections c' problems p'.
Proof.
  intros Hok. revert connections problems.
  induction out_items as [|[out_id out_doc] out_items IH]; simpl;
    intros connections problems H.
  - injection H as <- <-. apply appends_refl.
  - bind_inv H. bind_inv H. destruct a0.
    + bind_inv H. bind_inv H. destruct a1 as [c1 p1].
      eapply appends_trans; [|apply IH, H].
      eapply connect_sources_ok; [exact Hok| |eassumption].
      destruct (dict_get (Workflow.outputs self) out_id) as [q|] eqn:Hq; [|discriminate].
      injection Hr as <-. left.
      destruct Hok as [_ [Hout _]]. destruct (Hout _ _ Hq) as [Hn Hp].
      split; [exact Hn | rewrite Hp; exact Hq].
    + apply IH, H.
Qed.

Lemma list_connections_ok env self c' p' :
  ports_ok self ->
  Workflow._list_connections env self = Ok (c', p') ->
  appends_ok self [] c' (Workflow.problems_with_wf self) p'.
Proof.
  intros Hok. unfold Workflow._list_connections. intros H.
  bind_inv H. bind_inv H. destruct a0 as [c1 p1]. bind_inv H.
  eapply appends_trans.
  - eapply connect_steps_ok; eassumption.
  - eapply connect_outputs_ok; eassumption.
Qed.

(** ** What [__init__] leaves behind *)

Lemma init_inv env doc wf :
  Workflow.__init__ env (Some doc) = Ok wf ->
  exists problems0 in_items in_ports out_items out_ports step_items sts problems1,
    Workflow.check_sections (cwl_dict doc) Workflow.required_sections [] = Ok problems0
    /\ get_items (cwl_dict doc) "inputs" = Ok in_items
    /\ Workflow.wf_ports in_items = Ok in_ports
    /\ get_items (cwl_dict doc) "outputs" = Ok out_items
    /\ Workflow.wf_ports out_items = Ok out_ports
    /\ get_items (cwl_dict doc) "steps" = Ok step_items
    /\ Workflow.build_steps env (path doc) step_items problems0 = Ok (sts, problems1)
    /\ Workflow._list_connections env
         (Workflow.mk doc problems1 (OrderedDict in_ports) (OrderedDict out_ports)
            (OrderedDict sts) [])
       = Ok (Workflow.connections wf, Workflow.problems_with_wf wf)
    /\ wf = Workflow.mk doc (Workflow.problems_with_wf wf) (OrderedDict in_ports)
              (OrderedDict out_ports) (OrderedDict sts) (Workflow.connections wf).
Proof.
  unfold Workflow.__init__. intros H.
  bind_inv H. bind_inv H. bind_inv H. bind_inv H. bind_inv H. bind_inv H.
  bind_inv H. destruct a5 as [sts problems1].
  bind_inv H. destruct a5 as [conns problems2]. injection H as <-. simpl.
  exists a, a0, a1, a2, a3, a4, sts, problems1.
  repeat match goal with |- _ /\ _ => split end; try assumption; reflexivity.
Qed.

Lemma built_ports_ok env doc wf :
  Workflow.__init__ env (Some doc) = Ok wf -> ports_ok wf.
Proof.
  intros H. apply init_inv in H.
  destruct H as (p0 & ii & ip & oi & op & si & sts & p1 &
                 _ & _ & Hip & _ & Hop & _ & Hsts & _ & ->).
  apply wf_ports_shape in Hip, Hop. apply build_steps_ok in Hsts.
  split; [|split]; simpl.
  - intros k p Hk. apply OrderedDict_get_In in Hk. apply Hip, Hk.
  - intros k p Hk. apply OrderedDict_get_In in Hk.
    destruct Hop as [_ Hop]. destruct (Hop _ _ Hk) as [ln ->]. split; reflexivity.
  - intros sid st Hk. apply OrderedDict_get_In in Hk. apply Hsts, Hk.
Qed.

Lemma built_problems env doc wf :
  Workflow.__init__ env (Some doc) = Ok wf ->
  exists problems0,
    Workflow.check_sections (cwl_dict doc) Workflow.required_sections [] = Ok problems0
    /\ extends_with_colons problems0 (Workflow.problems_with_wf wf).
Proof.
  intros H. pose proof (built_ports_ok _ _ _ H) as Hok. apply init_inv in H.
  destruct H as (p0 & ii & ip & oi & op & si & sts & p1 &
                 Hp0 & _ & _ & _ & _ & _ & Hsts & Hl & E).
  exists p0. split; [exact Hp0|].
  apply build_steps_ok in Hsts. destruct Hsts as [_ [_ He]].
  eapply extends_trans; [exact He|].
  apply list_connections_ok in Hl; [apply Hl|].
  rewrite E in Hok. exact Hok.
Qed.

Lemma built_connections_ok env doc wf :
  Workflow.__init__ env (Some doc) = Ok wf ->
  Forall (connection_ok wf) (Workflow.connections wf).
Proof.
  intros H. pose proof (built_ports_ok _ _ _ H) as Hok. apply init_inv in H.
  destruct H as (p0 & ii & ip & oi & op & si & sts & p1 &
                 _ & _ & _ & _ & _ & _ & _ & Hl & E).
  apply list_connections_ok in Hl; [|rewrite E in Hok; exact Hok].
  destruct Hl as [[new [Hnew Hall]] _]. simpl in Hnew.
  rewrite E. simpl. rewrite Hnew. exact Hall.
Qed.

(** ** Equality of ports and connections *)

Lemma opt_str_eqb_eq (a b : option string) : opt_str_eqb a b = true <-> a = b.
Proof.
  destruct a as [x|], b as [y|]; simpl; try rewrite String.eqb_eq;
    split; intros H; congruence.
Qed.

Lemma port_eq_iff (p q : Port.t) :
  Port.__eq__ p q = true
  <-> Port.node_id p = Port.node_id q /\ Port.port_id p = Port.port_id q.
Proof.
  unfold Port.__eq__. rewrite andb_true_iff, opt_str_eqb_eq, String.eqb_eq.
  reflexivity.
Qed.

Lemma connection_eq_iff (c d : Connection.t) :
  Connection.__eq__ c d = true
  <-> Port.__eq__ (Connection.src c) (Connection.src d) = true
      /\ Port.__eq__ (Connection.dst c) (Connection.dst d) = true.
Proof. unfold Connection.__eq__. apply andb_true_iff. Qed.

Lemma source_ports_identical self p q :
  source_port_ok self p -> source_port_ok self q ->
  Port.__eq__ p q = true -> p = q.
Proof.
  intros Hp Hq E. apply port_eq_iff in E. destruct E as [En Ep].
  destruct Hp as [[Hn [_ Hd]]|[sid Hp]], Hq as [[Hn' [_ Hd']]|[sid' Hq]].
  - rewrite Ep in Hd. congruence.
  - rewrite Hq in En. simpl in En. congruence.
  - rewrite Hp in En. simpl in En. congruence.
  - rewrite Hp, Hq in En |- *. simpl in En. congruence.
Qed.

Lemma sink_ports_identical self p q :
  sink_port_ok self p -> sink_port_ok self q ->
  Port.__eq__ p q = true -> p = q.
Proof.
  intros Hp Hq E. apply port_eq_iff in E. destruct E as [En Ep].
  destruct Hp as [[Hn Hd]|[sid Hp]], Hq as [[Hn' Hd']|[sid' Hq]].
  - rewrite Ep in Hd. congruence.
  - rewrite Hq in En. simpl in En. congruence.
  - rewrite Hp in En. simpl in En. congruence.
  - rewrite Hp, Hq in En |- *. simpl in En. congruence.
Qed.

Lemma equal_connections_identical self c d :
  connection_ok self c -> connection_ok self d ->
  Connection.__eq__ c d = true -> c = d.
Proof.
  intros [Lc [Sc Dc]] [Ld [Sd Dd]] E. apply connection_eq_iff in E.
  destruct E as [Es Ed].
  pose proof (source_ports_identical _ _ _ Sc Sd Es) as Hs.
  pose proof (sink_ports_identical _ _ _ Dc Dd Ed) as Hd.
  destruct c as [cs cd cl], d as [ds dd dl]; simpl in *. congruence.
Qed.

Lemma port_eq_sym (p q : Port.t) : Port.__eq__ p q = Port.__eq__ q p.
Proof.
  unfold Port.__eq__. f_equal.
  - destruct (Port.node_id p), (Port.node_id q); simpl; auto using String.eqb_sym.
  - apply String.eqb_sym.
Qed.

Lemma port_eq_trans (p q r : Port.t) :
  Port.__eq__ p q = true -> Port.__eq__ q r = true -> Port.__eq__ p r = true.
Proof. rewrite !port_eq_iff. intros [? ?] [? ?]. split; congruence. Qed.

Lemma connection_eq_via (c d cand : Connection.t) :
  Connection.__eq__ c cand = true -> Connection.__eq__ d cand = true ->
  Connection.__eq__ c d = true.
Proof.
  rewrite !connection_eq_iff. intros [H1 H2] [H3 H4].
  rewrite port_eq_sym in H3, H4. split; eapply port_eq_trans; eassumption.
Qed.

(** ** The scan of [find_connection] *)

Lemma find_in_match connections cand c :
  In c connections -> Connection.__eq__ c cand = true ->
  (forall d, In d connections -> Connection.__eq__ d cand = true ->
             Connection.line d = Connection.line c) ->
  Workflow.find_in connections cand = Connection.line c.
Proof.
  induction connections as [|d rest IH]; simpl; [contradiction|].
  intros Hin Hc Hall.
  destruct (Connection.__eq__ d cand) eqn:Hd.
  - apply Hall; [left; reflexivity | exact Hd].
  - destruct Hin as [->|Hin]; [congruence|].
    apply IH; [exact Hin | exact Hc | intros; apply Hall; auto].
Qed.

Lemma find_in_none connections cand :
  (forall d, In d connections -> Connection.__eq__ d cand = true ->
             Connection.line d = None) ->
  Workflow.find_in connections cand = None.
Proof.
  induction connections as [|d rest IH]; simpl; [reflexivity|].
  intros Hall. destruct (Connection.__eq__ d cand) eqn:Hd.
  - apply Hall; [left; reflexivity | exact Hd].
  - apply IH. intros; apply Hall; auto.
Qed.

Lemma built_find_connection env doc wf c cand :
  Workflow.__init__ env (Some doc) = Ok wf ->
  In c (Workflow.connections wf) ->
  Connection.__eq__ c cand = true ->
  Workflow.find_connection wf cand = Connection.line c.
Proof.
  intros H Hin Hc. pose proof (built_connections_ok _ _ _ H) as Hall.
  rewrite Forall_forall in Hall.
  apply find_in_match; [exact Hin | exact Hc|].
  intros d Hd Hdc. f_equal.
  apply (equal_connections_identical wf); auto.
  eapply connection_eq_via; eassumption.
Qed.

(** ** Connections of a built workflow *)

Lemma init_two_sources :
  Workflow.__init__ no_files (Some (doc_with two_sources [])) = Ok wf_two_sources.
Proof. reflexivity. Qed.

Lemma init_same_source_twice :
  Workflow.__init__ no_files (Some (doc_with same_source_twice []))
  = Ok wf_same_source_twice.
Proof. reflexivity. Qed.

(** C8, counterexample: in the workflow built from [source: [x, A/out1]] the
    stored connection from [A/out1] to [A.in1] has no line, and
    [find_connection] on a candidate with the same [src] and [dst] and the
    line [(11, 11)] returns [None]. *)
Lemma find_connection_step_source_counterexample :
  Workflow.__init__ no_files (Some (doc_with two_sources [])) = Ok wf_two_sources
  /\ In conn_out1_in1 (Workflow.connections wf_two_sources)
  /\ Connection.line conn_out1_in1 <> Some (11, 11)%Z
  /\ Workflow.find_connection wf_two_sources
       (Connection.mk (Connection.src conn_out1_in1) (Connection.dst conn_out1_in1)
          (Some (11, 11)%Z))
     = None.
Proof.
  split; [reflexivity|]. split; [right; left; reflexivity|].
  split; [discriminate | reflexivity].
Qed.

(** C8, amended: for every built workflow, every stored connection [c] and
    every candidate whose [src] and [dst] equal those of [c] as ports (same
    [node_id] and [port_id], whatever the lines), [find_connection] returns
    the line stored in [c]; that line is a line range when the source of [c]
    is a workflow input and [None] when it is a port of a step.  Equality of
    connections is equality of [src] and [dst], and two ports are equal
    exactly when [node_id] and [port_id] match. *)
Theorem find_connection_structural env doc wf c cand :
  Workflow.__init__ env (Some doc) = Ok wf ->
  In c (Workflow.connections wf) ->
  Port.__eq__ (Connection.src c) (Connection.src cand) = true ->
  Port.__eq__ (Connection.dst c) (Connection.dst cand) = true ->
  Workflow.find_connection wf cand = Connection.line c
  /\ (Port.node_id (Connection.src c) = None -> exists ln, Connection.line c = Some ln)
  /\ (Port.node_id (Connection.src c) <> None -> Connection.line c = None)
  /\ (forall p q, Port.__eq__ p q = true
                  <-> Port.node_id p = Port.node_id q /\ Port.port_id p = Port.port_id q)
  /\ (forall a b, Connection.__eq__ a b = true
                  <-> Port.__eq__ (Connection.src a) (Connection.src b) = true
                      /\ Port.__eq__ (Connection.dst a) (Connection.dst b) = true).
Proof.
  intros H Hin Hs Hd.
  pose proof (built_connections_ok _ _ _ H) as Hall. rewrite Forall_forall in Hall.
  destruct (Hall c Hin) as [Hl [Hsrc _]].
  split; [|split; [|split; [|split]]].
  - eapply built_find_connection; [eassumption | exact Hin|].
    apply connection_eq_iff. split; assumption.
  - intros Hn. rewrite Hl. destruct Hsrc as [[_ [Hln _]]|[sid Hp]]; [exact Hln|].
    rewrite Hp in Hn. discriminate Hn.
  - intros Hn. rewrite Hl. destruct Hsrc as [[Hnone _]|[sid Hp]]; [contradiction|].
    rewrite Hp. reflexivity.
  - apply port_eq_iff.
  - apply connection_eq_iff.
Qed.

Lemma find_connection_structural_witness :
  Workflow.find_connection wf_two_sources
    (Connection.mk port_x port_A_in1 (Some (11, 11)%Z))
  = Some (3, 3)%Z.
Proof.
  apply (find_connection_structural no_files (doc_with two_sources []) wf_two_sources
           conn_x_in1 (Connection.mk port_x port_A_in1 (Some (11, 11)%Z))).
  - reflexivity.
  - left; reflexivity.
  - reflexivity.
  - reflexivity.
Defined.

(** C9, counterexample: [source: [x, x]] puts the connection from [x] to
    [A.in1] twice into the list. *)
Lemma parallel_edges_counterexample :
  Workflow.__init__ no_files (Some (doc_with same_source_twice []))
  = Ok wf_same_source_twice
  /\ ~ no_parallel_edges (Workflow.connections wf_same_source_twice).
Proof.
  split; [reflexivity|]. intros H.
  specialize (H 0%nat 1%nat conn_x_in1 conn_x_in1 eq_refl eq_refl eq_refl).
  discriminate H.
Qed.

(** C9, amended: the list of a built workflow holds one connection for every
    reference that resolves, so an ordered pair of ports can occur more than
    once; two stored connections with equal [src] and [dst] are identical,
    line included, and the line [find_connection] returns for its first match
    is the line of every stored connection that matches the candidate. *)
Theorem parallel_edges_identical env doc wf c d cand :
  Workflow.__init__ env (Some doc) = Ok wf ->
  In c (Workflow.connections wf) ->
  In d (Workflow.connections wf) ->
  (Connection.__eq__ c d = true -> c = d)
  /\ (Connection.__eq__ c cand = true ->
      Workflow.find_connection wf cand = Connection.line c).
Proof.
  intros H Hc Hd.
  pose proof (built_connections_ok _ _ _ H) as Hall. rewrite Forall_forall in Hall.
  split.
  - apply (equal_connections_identical wf); auto.
  - intros E. eapply built_find_connection; eassumption.
Qed.

Lemma parallel_edges_identical_witness :
  (Connection.__eq__ conn_x_in1 conn_x_in1 = true -> conn_x_in1 = conn_x_in1)
  /\ (Connection.__eq__ conn_x_in1 (Connection.mk port_x port_A_in1 None) = true ->
      Workflow.find_connection wf_same_source_twice (Connection.mk port_x port_A_in1 None)
      = Connection.line conn_x_in1).
Proof.
  apply (parallel_edges_identical no_files (doc_with same_source_twice [])
           wf_same_source_twice conn_x_in1 conn_x_in1
           (Connection.mk port_x port_A_in1 None)).
  - reflexivity.
  - left; reflexivity.
  - right; left; reflexivity.
Defined.

(** C10: in a built workflow every port of a step's [available_sinks] and
    [available_sources] has line [None]; every connection takes its line from
    its source port, so a connection whose source is a port of a step has
    line [None], and [find_connection] returns [None] for every candidate
    equal to it, the stored connection itself included, although the
    connection is in the list. *)
Theorem step_source_connections_have_no_line env doc wf :
  Workflow.__init__ env (Some doc) = Ok wf ->
  (forall sid st k p,
      dict_get (Workflow.steps wf) sid = Some st ->
      In (k, p) (items (Step.available_sinks st))
      \/ In (k, p) (items (Step.available_sources st)) ->
      Port.line p = None)
  /\ (forall c, In c (Workflow.connections wf) ->
                Connection.line c = Port.line (Connection.src c))
  /\ (forall c, In c (Workflow.connections wf) ->
                Port.node_id (Connection.src c) <> None ->
                Connection.line c = None
                /\ Workflow.find_connection wf c = None
                /\ forall cand, Connection.__eq__ c cand = true ->
                                Workflow.find_connection wf cand = None).
Proof.
  intros H.
  pose proof (built_ports_ok _ _ _ H) as [_ [_ Hsteps]].
  pose proof (built_connections_ok _ _ _ H) as Hall. rewrite Forall_forall in Hall.
  split; [|split].
  - intros sid st k p Hst Hin. destruct (Hsteps _ _ Hst) as [_ [Hsi Hso]].
    destruct Hin as [Hin|Hin]; [rewrite (Hsi _ _ Hin) | rewrite (Hso _ _ Hin)];
      reflexivity.
  - intros c Hc. apply (Hall c Hc).
  - intros c Hc Hn.
    assert (Hline : Connection.line c = None).
    { destruct (Hall c Hc) as [Hl [[[Hnone _]|[sid Hp]] _]]; [contradiction|].
      rewrite Hl, Hp. reflexivity. }
    assert (Hfind : forall cand, Connection.__eq__ c cand = true ->
                                 Workflow.find_connection wf cand = None).
    { intros cand E. rewrite <- Hline. eapply built_find_connection; eassumption. }
    split; [exact Hline | split; [|exact Hfind]].
    apply Hfind. apply connection_eq_iff. rewrite !port_eq_iff. auto.
Qed.

Lemma step_source_connections_have_no_line_witness :
  Connection.line conn_out1_in1 = None
  /\ Workflow.find_connection wf_two_sources conn_out1_in1 = None
  /\ forall cand, Connection.__eq__ conn_out1_in1 cand = true ->
                  Workflow.find_connection wf_two_sources cand = None.
Proof.
  apply (step_source_connections_have_no_line no_files (doc_with two_sources [])
           wf_two_sources eq_refl).
  - right; left; reflexivity.
  - discriminate.
Defined.

(** ** Required sections *)

Lemma node_contains_map s e obj k :
  node_contains (CWLMap s e obj) k = Ok (has_key k obj).
Proof. reflexivity. Qed.

Lemma get_items_map_absent s e obj k :
  has_key k obj = false -> get_items (CWLMap s e obj) k = Ok [].
Proof.
  unfold has_key, get_items. simpl. destruct (assoc k obj); [discriminate|reflexivity].
Qed.

Lemma get_items_map_present s e obj k v :
  assoc k obj = Some v -> get_items (CWLMap s e obj) k = node_items v.
Proof. unfold get_items. simpl. intros ->. reflexivity. Qed.

Lemma check_sections_map s e obj secs problems :
  Workflow.check_sections (CWLMap s e obj) secs problems
  = Ok (problems
        ++ map Workflow.missing_msg (filter (fun sec => negb (has_key sec obj)) secs)).
Proof.
  revert problems. induction secs as [|sec secs IH]; intros problems; simpl.
  - rewrite app_nil_r. reflexivity.
  - rewrite IH. fold (has_key sec obj). destruct (has_key sec obj); simpl; [reflexivity|].
    rewrite <- app_assoc. reflexivity.
Qed.

Lemma missing_msg_no_colon sec :
  In sec Workflow.required_sections -> ~ has_colon (Workflow.missing_msg sec).
Proof.
  unfold has_colon. simpl.
  intros [<-|[<-|[<-|[<-|[<-|[]]]]]]; vm_compute; discriminate.
Qed.

Lemma count_occ_colons rest d :
  Forall has_colon rest -> ~ has_colon d -> count_occ string_dec rest d = 0%nat.
Proof.
  intros Hall Hd. apply count_occ_not_In. intros Hin.
  rewrite Forall_forall in Hall. apply Hd, Hall, Hin.
Qed.

Lemma count_missing top sec :
  In sec Workflow.required_sections ->
  count_occ string_dec (map Workflow.missing_msg (missing_sections top))
    (Workflow.missing_msg sec)
  = if has_key sec top then 0%nat else 1%nat.
Proof.
  unfold missing_sections. simpl.
  intros [<-|[<-|[<-|[<-|[<-|[]]]]]];
    destruct (has_key "cwlVersion" top), (has_key "class" top),
      (has_key "inputs" top), (has_key "outputs" top), (has_key "steps" top);
    reflexivity.
Qed.

(** C7: for a document whose top level is a mapping, the check of the
    required sections appends ['<section>' missing] once for every section of
    [cwlVersion], [class], [inputs], [outputs], [steps] that is not a key, in
    that order, and never raises; the problems of the built workflow start
    with these messages and no later diagnostic equals one of them.  When
    only [outputs] is missing, the problems hold exactly one entry equal to
    ['outputs' missing], the first one.  A document with none of [inputs],
    [outputs] and [steps] is still built, with empty collections, and a
    document that lacks only [outputs], declares inputs that carry lines and
    has no step is built with ['outputs' missing] as its only problem. *)
Theorem missing_sections_diagnosed env doc s e top :
  cwl_dict doc = CWLMap s e top ->
  Workflow.check_sections (cwl_dict doc) Workflow.required_sections []
  = Ok (map Workflow.missing_msg (missing_sections top))
  /\ (forall wf,
        Workflow.__init__ env (Some doc) = Ok wf ->
        (exists rest,
            Workflow.problems_with_wf wf
            = map Workflow.missing_msg (missing_sections top) ++ rest
            /\ Forall has_colon rest)
        /\ (forall sec, In sec Workflow.required_sections ->
                        count_occ string_dec (Workflow.problems_with_wf wf)
                          (Workflow.missing_msg sec)
                        = if has_key sec top then 0%nat else 1%nat)
        /\ (missing_sections top = ["outputs"] ->
            count_occ string_dec (Workflow.problems_with_wf wf) "'outputs' missing" = 1%nat
            /\ hd_error (Workflow.problems_with_wf wf) = Some "'outputs' missing"))
  /\ (has_key "inputs" top = false -> has_key "outputs" top = false ->
      has_key "steps" top = false ->
      Workflow.__init__ env (Some doc)
      = Ok (Workflow.mk doc (map Workflow.missing_msg (missing_sections top))
              empty_ports empty_ports empty_steps []))
  /\ (forall si ei ins ss es,
        missing_sections top = ["outputs"] ->
        assoc "inputs" top = Some (CWLMap si ei ins) -> carries_lines ins ->
        assoc "steps" top = Some (CWLMap ss es []) ->
        exists wf, Workflow.__init__ env (Some doc) = Ok wf
                   /\ Workflow.problems_with_wf wf = ["'outputs' missing"]).
Proof.
  intros Hdoc.
  assert (Hcheck : Workflow.check_sections (cwl_dict doc) Workflow.required_sections []
                   = Ok (map Workflow.missing_msg (missing_sections top))).
  { rewrite Hdoc. apply check_sections_map. }
  split; [exact Hcheck | split; [|split]].
  - intros wf H. apply built_problems in H. destruct H as [p0 [Hp0 [rest [Hp Hrest]]]].
    rewrite Hcheck in Hp0. injection Hp0 as <-.
    assert (Hcount : forall sec, In sec Workflow.required_sections ->
              count_occ string_dec (Workflow.problems_with_wf wf)
                (Workflow.missing_msg sec)
              = if has_key sec top then 0%nat else 1%nat).
    { intros sec Hsec. rewrite Hp, count_occ_app, (count_missing top sec Hsec).
      rewrite (count_occ_colons rest _ Hrest (missing_msg_no_colon sec Hsec)).
      apply Nat.add_0_r. }
    split; [exists rest; split; assumption | split; [exact Hcount|]].
    intros Hmiss. split.
    + change "'outputs' missing" with (Workflow.missing_msg "outputs").
      rewrite Hcount; [|simpl; auto].
      assert (Hin : In "outputs" (missing_sections top)) by (rewrite Hmiss; left; reflexivity).
      unfold missing_sections in Hin. apply filter_In in Hin. destruct Hin as [_ Hk].
      destruct (has_key "outputs" top); [discriminate | reflexivity].
    + rewrite Hp, Hmiss. reflexivity.
  - intros Hi Ho Hs. unfold Workflow.__init__. rewrite Hcheck. simpl.
    rewrite Hdoc, (get_items_map_absent _ _ _ _ Hi), (get_items_map_absent _ _ _ _ Ho),
      (get_items_map_absent _ _ _ _ Hs).
    simpl. unfold Workflow._list_connections. simpl.
    rewrite Hdoc, (get_items_map_absent _ _ _ _ Ho), (get_items_map_absent _ _ _ _ Hs).
    reflexivity.
  - intros si ei ins ss es Hmiss Hins Hlines Hsteps.
    assert (Ho : has_key "outputs" top = false).
    { assert (Hin : In "outputs" (missing_sections top)) by (rewrite Hmiss; left; reflexivity).
      unfold missing_sections in Hin. apply filter_In in Hin. destruct Hin as [_ Hk].
      destruct (has_key "outputs" top); [discriminate | reflexivity]. }
    destruct (wf_ports_total ins Hlines) as [in_ports Hip].
    eexists. split.
    + unfold Workflow.__init__. rewrite Hcheck. cbn [bind].
      rewrite Hdoc, (get_items_map_present _ _ _ _ _ Hins),
        (get_items_map_absent _ _ _ _ Ho), (get_items_map_present _ _ _ _ _ Hsteps).
      cbn [node_items bind]. rewrite Hip.
      cbn [bind Workflow.wf_ports Workflow.build_steps].
      unfold Workflow._list_connections. cbn [Workflow.cwl_doc]. rewrite Hdoc.
      rewrite (get_items_map_absent _ _ _ _ Ho), (get_items_map_present _ _ _ _ _ Hsteps).
      cbn [node_items bind Workflow.connect_steps Workflow.connect_outputs].
      reflexivity.
    + cbn [Workflow.problems_with_wf]. rewrite Hmiss. reflexivity.
Qed.

Lemma init_no_outputs :
  Workflow.__init__ no_files (Some no_outputs_doc) = Ok wf_no_outputs.
Proof. reflexivity. Qed.

Lemma missing_sections_diagnosed_witness :
  count_occ string_dec (Workflow.problems_with_wf wf_no_outputs) "'outputs' missing" = 1%nat
  /\ hd_error (Workflow.problems_with_wf wf_no_outputs) = Some "'outputs' missing".
Proof.
  apply (proj1 (proj2 (missing_sections_diagnosed no_files no_outputs_doc 0 5 _ eq_refl))
           wf_no_outputs eq_refl).
  reflexivity.
Defined.

(** ** Sub-processes that are not found *)

Lemma od_set_fresh {V : Type} (k : string) (v : V) (d : list (string * V)) :
  ~ In k (map fst d) -> od_set k v d = d ++ [(k, v)].
Proof.
  induction d as [|[k' v'] d IH]; simpl; intros H; [reflexivity|].
  destruct (String.eqb_spec k' k) as [E|N]; [exfalso; auto|].
  rewrite IH; [reflexivity | auto].
Qed.

Lemma fold_od_set_NoDup {V : Type} (pairs d : list (string * V)) :
  NoDup (map fst (d ++ pairs)) ->
  fold_left od_step pairs d = d ++ pairs.
Proof.
  revert d. induction pairs as [|[k v] pairs IH]; intros d H; simpl.
  - symmetry; apply app_nil_r.
  - unfold od_step at 2; simpl. rewrite od_set_fresh.
    + rewrite IH; rewrite <- app_assoc; [reflexivity | exact H].
    + rewrite map_app in H. simpl in H. apply NoDup_remove_2 in H.
      intros Hin. apply H, in_or_app. left; exact Hin.
Qed.

Lemma OrderedDict_NoDup {V : Type} (pairs : list (string * V)) :
  NoDup (map fst pairs) -> items (OrderedDict pairs) = pairs.
Proof. intros H. unfold OrderedDict; simpl. apply (fold_od_set_NoDup pairs [] H). Qed.

Lemma build_steps_In env root kvs problems sts problems' k v :
  Workflow.build_steps env root kvs problems = Ok (sts, problems') ->
  In (k, v) kvs ->
  exists ln st e0 e1,
    line_span v = Ok ln
    /\ Step.from_doc env k ln v root e0 = Ok (st, e1)
    /\ In (k, st) sts
    /\ extends_with_colons e1 problems'.
Proof.
  revert problems sts problems'.
  induction kvs as [|[k0 v0] kvs IH]; simpl; intros problems sts problems' H Hin;
    [contradiction|].
  bind_inv H. bind_inv H. destruct a0 as [st problems1].
  bind_inv H. destruct a0 as [sts' problems2]. injection H as <- <-.
  destruct Hin as [E|Hin].
  - injection E as -> ->. exists a, st, problems, problems1.
    repeat match goal with |- _ /\ _ => split end; try assumption.
    + left; reflexivity.
    + apply build_steps_ok in Hr1. apply Hr1.
  - destruct (IH _ _ _ Hr1 Hin) as (ln & st' & e0 & e1 & H1 & H2 & H3 & H4).
    exists ln, st', e0, e1.
    repeat match goal with |- _ /\ _ => split end; try assumption.
    right; exact H3.
Qed.

Lemma from_doc_not_found env step_id line step_doc root run errs :
  node_contains step_doc "run" = Ok true ->
  node_getitem step_doc "run" = Ok (Scalar (PyStr run)) ->
  open_read env (resolve_run env root run) = Raise FileNotFoundError ->
  Step.from_doc env step_id line step_doc root errs
  = Ok (degraded_step step_id line,
        errs ++ [Step.not_found_msg env run (resolve_run env root run)]).
Proof.
  intros Hc Hg Ho. unfold Step.from_doc.
  assert (Hn : match step_doc with
               | Scalar PyNone => Ok true
               | _ => b <- node_contains step_doc "run" ;; Ok (negb b)
               end = Ok false).
  { destruct step_doc as [[| | | |]| |]; try discriminate Hc; rewrite Hc; reflexivity. }
  rewrite Hn. simpl. rewrite Hg. simpl. rewrite Ho. reflexivity.
Qed.

(** C5: a step whose [run] is a string naming a file that is not found is
    built with empty [available_sinks] and [available_sources], whatever the
    problems found so far, and appends
    [Could not find sub workflow: <run> (resolved to <uri of the resolved
    path>)]; the steps after it are then built from the extended problem
    list; in the built workflow the step is stored under its key, every
    declared step has an entry, and the message is one of the problems. *)
Theorem missing_sub_workflow_degrades env doc step_items k v ln run :
  get_items (cwl_dict doc) "steps" = Ok step_items ->
  NoDup (map fst step_items) ->
  In (k, v) step_items ->
  line_span v = Ok ln ->
  node_contains v "run" = Ok true ->
  node_getitem v "run" = Ok (Scalar (PyStr run)) ->
  open_read env (resolve_run env (path doc) run) = Raise FileNotFoundError ->
  let msg := ("Could not find sub workflow: " ++ run ++ " (resolved to "
              ++ as_uri env (resolve_run env (path doc) run) ++ ")")%string in
  let degraded := Step.mk ln k (OrderedDict []) (OrderedDict []) in
  items (Step.available_sinks degraded) = []
  /\ items (Step.available_sources degraded) = []
  /\ (forall errs,
        Step.from_doc env k ln v (path doc) errs = Ok (degraded, errs ++ [msg]))
  /\ (forall rest errs,
        Workflow.build_steps env (path doc) ((k, v) :: rest) errs
        = ('(sts, errs') <- Workflow.build_steps env (path doc) rest (errs ++ [msg]) ;;
           Ok ((k, degraded) :: sts, errs')))
  /\ (forall wf,
        Workflow.__init__ env (Some doc) = Ok wf ->
        dict_get (Workflow.steps wf) k = Some degraded
        /\ In msg (Workflow.problems_with_wf wf)
        /\ map fst (items (Workflow.steps wf)) = map fst step_items).
Proof.
  intros Hitems Hnd Hin Hln Hc Hg Ho msg degraded.
  assert (Hfrom : forall errs,
             Step.from_doc env k ln v (path doc) errs = Ok (degraded, errs ++ [msg])).
  { intros errs. apply from_doc_not_found; assumption. }
  split; [reflexivity | split; [reflexivity | split; [exact Hfrom | split]]].
  - intros rest errs. simpl. rewrite Hln. simpl. rewrite Hfrom. reflexivity.
  - intros wf H. pose proof (built_ports_ok _ _ _ H) as Hok. apply init_inv in H.
    destruct H as (p0 & ii & ip & oi & op & si & sts & p1 &
                   _ & _ & _ & _ & _ & Hsi & Hsts & Hl & E).
    rewrite Hitems in Hsi. injection Hsi as <-.
    pose proof (build_steps_ok _ _ _ _ _ _ Hsts) as [Hkeys _].
    destruct (build_steps_In _ _ _ _ _ _ _ _ Hsts Hin)
      as (ln' & st & e0 & e1 & Hln' & Hst & Hinst & Hext).
    rewrite Hln in Hln'. injection Hln' as <-.
    rewrite Hfrom in Hst. injection Hst as <- <-.
    rewrite E in Hok |- *. cbn [Workflow.steps Workflow.problems_with_wf].
    assert (Hnd' : NoDup (map fst sts)) by (rewrite Hkeys; exact Hnd).
    split; [|split].
    + apply OrderedDict_get_NoDup; assumption.
    + apply list_connections_ok in Hl; [|exact Hok].
      destruct Hl as [_ Hl]. simpl in Hl.
      eapply extends_In; [exact Hl|]. eapply extends_In; [exact Hext|].
      apply in_or_app. right; left; reflexivity.
    + rewrite (OrderedDict_NoDup sts Hnd'). exact Hkeys.
Qed.

Lemma missing_sub_workflow_degrades_witness :
  dict_get (Workflow.steps wf_no_outputs) "A" = Some (degraded_step "A" (4, 4)%Z)
  /\ In "Could not find sub workflow: sub.cwl (resolved to file:///wf/sub.cwl)"
       (Workflow.problems_with_wf wf_no_outputs)
  /\ map fst (items (Workflow.steps wf_no_outputs)) = ["A"; "B"].
Proof.
  apply (missing_sub_workflow_degrades no_files no_outputs_doc
           [("A", CWLMap 4 4 [("run", str "sub.cwl")]);
            ("B", CWLMap 5 5 [("run", CWLMap 5 5 [("inputs", CWLMap 5 5 []);
                                                  ("outputs", CWLMap 5 5 [])])])]
           "A" (CWLMap 4 4 [("run", str "sub.cwl")]) (4, 4)%Z "sub.cwl").
  - reflexivity.
  - repeat constructor; simpl; intuition discriminate.
  - left; reflexivity.
  - reflexivity.
  - reflexivity.
  - reflexivity.
  - reflexivity.
  - reflexivity.
Defined.

(** ** Resolution of source references *)

Lemma get_source_unspecified env self :
  Workflow._get_source env self (Scalar PyNone)
  = Raise (WFConnectionError "No source specified")
  /\ Workflow._get_source env self (Scalar (PyStr ""))
     = Raise (WFConnectionError "No source specified").
Proof. split; reflexivity. Qed.

Lemma get_source_input env self x :
  x <> "" -> str_in "/" x = false ->
  Workflow._get_source env self (Scalar (PyStr x))
  = match dict_get (Workflow.inputs self) x with
    | None => Raise (WFConnectionError ("No such WF input " ++ x))
    | Some p => Ok p
    end.
Proof.
  intros Hx Hs. destruct x as [|c x]; [contradiction Hx; reflexivity|].
  unfold Workflow._get_source. rewrite Hs. reflexivity.
Qed.

Lemma get_source_step env self a b :
  str_in "/" a = false -> str_in "/" b = false ->
  Workflow._get_source env self (Scalar (PyStr (a ++ "/" ++ b)))
  = match dict_get (Workflow.steps self) a with
    | None => Raise (WFConnectionError ("No such source step " ++ a))
    | Some st =>
        match dict_get (Step.available_sources st) b with
        | None => Raise (WFConnectionError ("No such source port " ++ a ++ "." ++ b))
        | Some p => Ok p
        end
    end.
Proof.
  intros Ha Hb. unfold Workflow._get_source.
  destruct (a ++ "/" ++ b)%string as [|c r] eqn:E.
  - destruct a; discriminate E.
  - rewrite <- E, (str_in_mid a "/" b). unfold Workflow._get_step_source.
    rewrite (split_one_slash a b Ha Hb). reflexivity.
Qed.

(** Each listed reference is one attempt: a connection or a problem. *)
Lemma connect_sources_attempts env self label sink srcs connections problems c' p' :
  Workflow.connect_sources env self label sink srcs connections problems = Ok (c', p') ->
  (List.length c' + List.length p'
   = List.length connections + List.length problems + List.length srcs)%nat.
Proof.
  revert connections problems.
  induction srcs as [|_src srcs IH]; simpl; intros connections problems H.
  - injection H as <- <-. lia.
  - destruct (Workflow._get_source env self _src) as [source|e].
    + apply IH in H. rewrite length_app in H. simpl in H. lia.
    + destruct e; try discriminate.
      apply IH in H. rewrite length_app in H. simpl in H. lia.
Qed.

(** ** Documents with one step and one binding *)

Lemma connect_outputs_no_sources env self outs connections problems :
  (forall k, In k (map fst outs) -> exists p, dict_get (Workflow.outputs self) k = Some p) ->
  Forall (fun kv => exists s e o, snd kv = CWLMap s e o
                                  /\ assoc "outputSource" o = None) outs ->
  Workflow.connect_outputs env self outs connections problems = Ok (connections, problems).
Proof.
  intros Hk Hall. induction Hall as [|[k v] outs (s & e & o & Hv & Ho) _ IH]; simpl.
  - reflexivity.
  - destruct (Hk k) as [p Hp]; [left; reflexivity|]. rewrite Hp. simpl.
    simpl in Hv. subst v. rewrite node_contains_map. unfold has_key. rewrite Ho. simpl.
    apply IH. intros k' Hk'. apply Hk. right; exact Hk'.
Qed.

Lemma outputs_section_ok s e top :
  no_output_sources top ->
  exists outs out_ports,
    get_items (CWLMap s e top) "outputs" = Ok outs
    /\ Workflow.wf_ports outs = Ok out_ports
    /\ Forall (fun kv => exists s e o, snd kv = CWLMap s e o
                                       /\ assoc "outputSource" o = None) outs.
Proof.
  unfold no_output_sources. intros H.
  destruct (assoc "outputs" top) as [[v | so eo outs | so eo l]|] eqn:E; try contradiction.
  - destruct (wf_ports_total outs) as [out_ports Hp].
    + eapply Forall_impl; [|exact H]. intros kv (s' & e' & o & -> & _). simpl. eauto.
    + exists outs, out_ports. rewrite (get_items_map_present _ _ _ _ _ E).
      repeat split; assumption.
  - exists [], []. rewrite get_items_map_absent; [|unfold has_key; rewrite E; reflexivity].
    repeat split. constructor.
Qed.

Lemma init_one_binding env doc s e top si ei ins ss es A sa ea step stA
      sb eb in1 sk ek binding source :
  cwl_dict doc = CWLMap s e top ->
  assoc "inputs" top = Some (CWLMap si ei ins) ->
  carries_lines ins ->
  no_output_sources top ->
  assoc "steps" top = Some (CWLMap ss es [(A, CWLMap sa ea step)]) ->
  (forall errs, exists errs',
      Step.from_doc env A (sa, ea) (CWLMap sa ea step) (path doc) errs = Ok (stA, errs')) ->
  dict_contains (Step.available_sinks stA) in1 = true ->
  assoc "in" step = Some (CWLMap sb eb [(in1, CWLMap sk ek binding)]) ->
  assoc "source" binding = Some source ->
  exists in_ports out_ports problems1,
    Workflow.wf_ports ins = Ok in_ports
    /\ step_ports_ok A stA
    /\ forall conns problems2,
        Workflow.connect_sources env
          (Workflow.mk doc problems1 (OrderedDict in_ports) (OrderedDict out_ports)
             (OrderedDict [(A, stA)]) [])
          (Step.__repr__ stA ++ "." ++ in1) (Port.mk (Some A) in1 None)
          (iter_scalar_or_list source) [] problems1
        = Ok (conns, problems2) ->
        Workflow.__init__ env (Some doc)
        = Ok (Workflow.mk doc problems2 (OrderedDict in_ports) (OrderedDict out_ports)
                (OrderedDict [(A, stA)]) conns).
Proof.
  intros Hdoc Hins Hlines Houts Hsteps Hfrom Hsink Hin Hsrc.
  destruct (wf_ports_total ins Hlines) as [in_ports Hip].
  destruct (outputs_section_ok s e top Houts) as (outs & out_ports & Hoi & Hop & Hno).
  set (p0 := map Workflow.missing_msg (missing_sections top)).
  destruct (Hfrom p0) as [p1 Hst].
  pose proof (from_doc_ok _ _ _ _ _ _ _ _ Hst) as [HstA _].
  exists in_ports, out_ports, p1. split; [exact Hip | split; [exact HstA|]].
  intros conns p2 Hconn.
  assert (Hsink' : dict_get (Step.available_sinks stA) in1
                   = Some (Port.mk (Some A) in1 None)).
  { unfold dict_contains in Hsink.
    destruct (dict_get (Step.available_sinks stA) in1) as [p|] eqn:Hp; [|discriminate].
    destruct HstA as [_ [Hsi _]]. rewrite (Hsi _ _ (assoc_In _ _ _ Hp)). reflexivity. }
  unfold Workflow.__init__. rewrite Hdoc.
  rewrite check_sections_map. cbn [bind app]. fold (missing_sections top). fold p0.
  rewrite (get_items_map_present _ _ _ _ _ Hins). cbn [node_items bind].
  rewrite Hip. cbn [bind]. rewrite Hoi. cbn [bind]. rewrite Hop. cbn [bind].
  rewrite (get_items_map_present _ _ _ _ _ Hsteps). cbn [node_items bind].
  cbn [Workflow.build_steps line_span bind]. rewrite Hst. cbn [bind].
  unfold Workflow._list_connections. cbn [Workflow.cwl_doc]. rewrite Hdoc.
  rewrite (get_items_map_present _ _ _ _ _ Hsteps). cbn [node_items bind].
  cbn [Workflow.connect_steps Workflow.steps Workflow.problems_with_wf].
  assert (HA : dict_get (OrderedDict [(A, stA)]) A = Some stA).
  { unfold dict_get, OrderedDict. simpl. rewrite String.eqb_refl. reflexivity. }
  rewrite HA. cbn [bind].
  rewrite (get_items_map_present _ _ _ _ _ Hin). cbn [node_items bind].
  cbn [Workflow.connect_sinks]. rewrite Hsink'.
  rewrite node_contains_map. unfold has_key at 1. rewrite Hsrc. cbn [bind].
  unfold node_getitem. cbn [node_items bind]. rewrite Hsrc. cbn [bind].
  rewrite Hconn. cbn [bind Workflow.connect_sinks Workflow.connect_steps].
  rewrite Hoi. cbn [bind].
  rewrite connect_outputs_no_sources; [reflexivity| |exact Hno].
  intros k Hk. cbn [Workflow.outputs]. apply OrderedDict_get_key.
  apply wf_ports_shape in Hop. destruct Hop as [Hkeys _]. rewrite Hkeys. exact Hk.
Qed.

Lemma input_port_of env self ins in_ports x :
  Workflow.wf_ports ins = Ok in_ports ->
  Workflow.inputs self = OrderedDict in_ports ->
  In x (map fst ins) -> x <> "" -> str_in "/" x = false ->
  exists ln, Workflow._get_source env self (Scalar (PyStr x))
             = Ok (Port.mk None x (Some ln)).
Proof.
  intros Hip Hself Hin Hx Hs. rewrite (get_source_input env self x Hx Hs), Hself.
  apply wf_ports_shape in Hip. destruct Hip as [Hkeys Hshape].
  destruct (OrderedDict_get_key in_ports x) as [p Hp]; [rewrite Hkeys; exact Hin|].
  rewrite Hp. destruct (Hshape x p (OrderedDict_get_In _ _ _ Hp)) as [ln ->].
  exists ln. reflexivity.
Qed.

Lemma step_source_port_of env self A stA out1 :
  Workflow.steps self = OrderedDict [(A, stA)] ->
  step_ports_ok A stA ->
  dict_contains (Step.available_sources stA) out1 = true ->
  str_in "/" A = false -> str_in "/" out1 = false ->
  Workflow._get_source env self (Scalar (PyStr (A ++ "/" ++ out1)))
  = Ok (Port.mk (Some A) out1 None).
Proof.
  intros Hself [_ [_ Hso]] Hc HA Ho. rewrite (get_source_step env self A out1 HA Ho), Hself.
  assert (Hget : dict_get (OrderedDict [(A, stA)]) A = Some stA).
  { unfold dict_get, OrderedDict. simpl. rewrite String.eqb_refl. reflexivity. }
  rewrite Hget. unfold dict_contains in Hc.
  destruct (dict_get (Step.available_sources stA) out1) as [p|] eqn:Hp; [|discriminate].
  rewrite (Hso _ _ (assoc_In _ _ _ Hp)). reflexivity.
Qed.

(** C3: a document whose [inputs] declare [x], whose only step [A] resolves
    to an interface with the sink [in1] and binds [in1: {source: x}], and
    whose outputs name no source, is built into a workflow with exactly one
    connection; its [src] is the input port [x], equal to [Port(None, x)],
    its [dst] is [Port(A, in1)], and its line is the line of the input. *)
Theorem single_source_connection env doc s e top si ei ins ss es A sa ea step stA
      sb eb in1 sk ek binding x :
  cwl_dict doc = CWLMap s e top ->
  assoc "inputs" top = Some (CWLMap si ei ins) ->
  carries_lines ins ->
  In x (map fst ins) -> x <> "" -> str_in "/" x = false ->
  no_output_sources top ->
  assoc "steps" top = Some (CWLMap ss es [(A, CWLMap sa ea step)]) ->
  (forall errs, exists errs',
      Step.from_doc env A (sa, ea) (CWLMap sa ea step) (path doc) errs = Ok (stA, errs')) ->
  dict_contains (Step.available_sinks stA) in1 = true ->
  assoc "in" step = Some (CWLMap sb eb [(in1, CWLMap sk ek binding)]) ->
  assoc "source" binding = Some (Scalar (PyStr x)) ->
  exists wf ln,
    Workflow.__init__ env (Some doc) = Ok wf
    /\ Workflow.connections wf
       = [Connection.mk (Port.mk None x (Some ln)) (Port.mk (Some A) in1 None) (Some ln)]
    /\ forall c, In c (Workflow.connections wf) ->
                 Port.__eq__ (Connection.src c) (Port.mk None x None) = true
                 /\ Port.__eq__ (Connection.dst c) (Port.mk (Some A) in1 None) = true.
Proof.
  intros Hdoc Hins Hlines Hx Hne Hslash Houts Hsteps Hfrom Hsink Hin Hsrc.
  destruct (init_one_binding env doc s e top si ei ins ss es A sa ea step stA
              sb eb in1 sk ek binding _ Hdoc Hins Hlines Houts Hsteps Hfrom Hsink Hin Hsrc)
    as (in_ports & out_ports & p1 & Hip & HstA & Hinit).
  set (self := Workflow.mk doc p1 (OrderedDict in_ports) (OrderedDict out_ports)
                 (OrderedDict [(A, stA)]) []) in Hinit.
  destruct (input_port_of env self ins in_ports x Hip eq_refl Hx Hne Hslash) as [ln Hget].
  eexists; exists ln. split; [|split].
  - apply Hinit. cbn [iter_scalar_or_list Workflow.connect_sources].
    rewrite Hget. reflexivity.
  - reflexivity.
  - cbn [Workflow.connections]. intros c [<-|[]]. unfold Port.__eq__. simpl.
    rewrite !String.eqb_refl. split; reflexivity.
Qed.

Lemma single_source_connection_witness :
  exists wf ln,
    Workflow.__init__ no_files (Some (doc_with (str "x") [])) = Ok wf
    /\ Workflow.connections wf
       = [Connection.mk (Port.mk None "x" (Some ln)) (Port.mk (Some "A") "in1" None)
            (Some ln)]
    /\ forall c, In c (Workflow.connections wf) ->
                 Port.__eq__ (Connection.src c) (Port.mk None "x" None) = true
                 /\ Port.__eq__ (Connection.dst c) (Port.mk (Some "A") "in1" None) = true.
Proof.
  apply (single_source_connection no_files (doc_with (str "x") []) 0 11
           (top_with (str "x") []) 2 3 [("x", CWLMap 3 3 [("type", str "string")])]
           5 11 "A" 6 11 (step_A_entries (str "x")) built_step_A 10 11 "in1" 11 11
           [("source", str "x")] "x").
  - reflexivity.
  - reflexivity.
  - repeat constructor. exists (3, 3)%Z. reflexivity.
  - left; reflexivity.
  - discriminate.
  - reflexivity.
  - constructor.
  - reflexivity.
  - intros errs. exists errs. reflexivity.
  - reflexivity.
  - reflexivity.
  - reflexivity.
Defined.

(** Two references in one sequence: where the loop over the references of a
    sink returns, each reference has added either one connection or one
    problem.  With [x] a
    declared input and [out1] a source of the only step [A], the binding
    [in1: {source: [x, A/out1]}] of [A] yields exactly two connections, from
    [x] and from [A.out1], both with [dst] equal to [Port(A, in1)]. *)
Theorem multi_source_connections env doc s e top si ei ins ss es A sa ea step stA
      sb eb in1 sk ek binding sl el x out1 :
  cwl_dict doc = CWLMap s e top ->
  assoc "inputs" top = Some (CWLMap si ei ins) ->
  carries_lines ins ->
  In x (map fst ins) -> x <> "" -> str_in "/" x = false ->
  no_output_sources top ->
  assoc "steps" top = Some (CWLMap ss es [(A, CWLMap sa ea step)]) ->
  (forall errs, exists errs',
      Step.from_doc env A (sa, ea) (CWLMap sa ea step) (path doc) errs = Ok (stA, errs')) ->
  dict_contains (Step.available_sinks stA) in1 = true ->
  dict_contains (Step.available_sources stA) out1 = true ->
  str_in "/" A = false -> str_in "/" out1 = false ->
  assoc "in" step = Some (CWLMap sb eb [(in1, CWLMap sk ek binding)]) ->
  assoc "source" binding
  = Some (CWLList sl el [Scalar (PyStr x); Scalar (PyStr (A ++ "/" ++ out1))]) ->
  (exists wf ln c1 c2,
      Workflow.__init__ env (Some doc) = Ok wf
      /\ Workflow.connections wf = [c1; c2]
      /\ c1 = Connection.mk (Port.mk None x (Some ln)) (Port.mk (Some A) in1 None) (Some ln)
      /\ c2 = Connection.mk (Port.mk (Some A) out1 None) (Port.mk (Some A) in1 None) None
      /\ Connection.dst c1 = Connection.dst c2
      /\ Port.__eq__ (Connection.dst c1) (Connection.dst c2) = true)
  /\ (forall self label sink refs l0 l1 connections problems c' p',
         iter_scalar_or_list (CWLList l0 l1 refs) = refs
         /\ (Workflow.connect_sources env self label sink
               (iter_scalar_or_list (CWLList l0 l1 refs)) connections problems
             = Ok (c', p') ->
             (List.length c' + List.length p'
              = List.length connections + List.length problems + List.length refs)%nat)).
Proof.
  intros Hdoc Hins Hlines Hx Hne Hslash Houts Hsteps Hfrom Hsink Hsource HA Ho Hin Hsrc.
  split.
  - destruct (init_one_binding env doc s e top si ei ins ss es A sa ea step stA
                sb eb in1 sk ek binding _ Hdoc Hins Hlines Houts Hsteps Hfrom Hsink Hin Hsrc)
      as (in_ports & out_ports & p1 & Hip & HstA & Hinit).
    set (self := Workflow.mk doc p1 (OrderedDict in_ports) (OrderedDict out_ports)
                   (OrderedDict [(A, stA)]) []) in Hinit.
    destruct (input_port_of env self ins in_ports x Hip eq_refl Hx Hne Hslash) as [ln Hget].
    pose proof (step_source_port_of env self A stA out1 eq_refl HstA Hsource HA Ho) as Hget2.
    eexists; exists ln; eexists; eexists. split; [|split; [|split; [|split; [|split]]]].
    + apply Hinit. cbn [iter_scalar_or_list Workflow.connect_sources].
      rewrite Hget, Hget2. reflexivity.
    + reflexivity.
    + reflexivity.
    + reflexivity.
    + reflexivity.
    + unfold Port.__eq__. simpl. rewrite !String.eqb_refl. reflexivity.
  - intros self label sink refs l0 l1 connections problems c' p'.
    split; [reflexivity|]. apply connect_sources_attempts.
Qed.

Lemma multi_source_connections_witness :
  exists wf ln c1 c2,
    Workflow.__init__ no_files (Some (doc_with two_sources [])) = Ok wf
    /\ Workflow.connections wf = [c1; c2]
    /\ c1 = Connection.mk (Port.mk None "x" (Some ln)) (Port.mk (Some "A") "in1" None)
              (Some ln)
    /\ c2 = Connection.mk (Port.mk (Some "A") "out1" None) (Port.mk (Some "A") "in1" None)
              None
    /\ Connection.dst c1 = Connection.dst c2
    /\ Port.__eq__ (Connection.dst c1) (Connection.dst c2) = true.
Proof.
  apply (multi_source_connections no_files (doc_with two_sources []) 0 11
           (top_with two_sources []) 2 3 [("x", CWLMap 3 3 [("type", str "string")])]
           5 11 "A" 6 11 (step_A_entries two_sources) built_step_A 10 11 "in1" 11 11
           [("source", two_sources)] 11 11 "x" "out1").
  - reflexivity.
  - reflexivity.
  - repeat constructor. exists (3, 3)%Z. reflexivity.
  - left; reflexivity.
  - discriminate.
  - reflexivity.
  - constructor.
  - reflexivity.
  - intros errs. exists errs. reflexivity.
  - reflexivity.
  - reflexivity.
  - reflexivity.
  - reflexivity.
  - reflexivity.
  - reflexivity.
Defined.

(** ** References with more than one slash *)

Lemma split_slash_nonempty (s : string) : split_slash s <> [].
Proof.
  induction s as [|c s IH]; simpl; [discriminate|].
  destruct (Ascii.eqb c "/"); [discriminate|].
  destruct (split_slash s); [contradiction IH; reflexivity | discriminate].
Qed.

Lemma split_slash_app_length (a r : string) :
  List.length (split_slash (a ++ "/" ++ r))
  = (List.length (split_slash a) + List.length (split_slash r))%nat.
Proof.
  induction a as [|c a IH]; simpl.
  - reflexivity.
  - destruct (Ascii.eqb c "/"); simpl.
    + simpl in IH. rewrite IH. reflexivity.
    + simpl in IH.
      pose proof (split_slash_nonempty (a ++ String "/" r)) as Hn1.
      pose proof (split_slash_nonempty a) as Hn2.
      destruct (split_slash (a ++ String "/" r)); [contradiction Hn1; reflexivity|].
      destruct (split_slash a); [contradiction Hn2; reflexivity|].
      exact IH.
Qed.

Lemma split_two_slashes (a b c : string) :
  (3 <= List.length (split_slash (a ++ "/" ++ b ++ "/" ++ c)))%nat.
Proof.
  rewrite !split_slash_app_length.
  pose proof (split_slash_nonempty a). pose proof (split_slash_nonempty b).
  pose proof (split_slash_nonempty c).
  destruct (split_slash a), (split_slash b), (split_slash c); simpl; try contradiction; lia.
Qed.

(** C2, the failing reference: a reference with two slashes, [a/b/c] among
    them, makes [_get_source] raise [ValueError] from the unpacking of
    [_src.split("/")] into two names, whatever the workflow holds; it is
    neither resolved nor turned into a [WFConnectionError]. *)
Theorem get_source_raises_on_second_slash env self :
  Workflow._get_source env self (Scalar (PyStr "a/b/c")) = Raise ValueError
  /\ forall a b c,
       Workflow._get_source env self (Scalar (PyStr (a ++ "/" ++ b ++ "/" ++ c)))
       = Raise ValueError.
Proof.
  assert (H : forall a b c,
             Workflow._get_source env self (Scalar (PyStr (a ++ "/" ++ b ++ "/" ++ c)))
             = Raise ValueError).
  { intros a b c. unfold Workflow._get_source.
    destruct (a ++ "/" ++ b ++ "/" ++ c)%string as [|ch r] eqn:E.
    - destruct a; discriminate E.
    - rewrite <- E, (str_in_mid a "/" (b ++ "/" ++ c)). unfold Workflow._get_step_source.
      pose proof (split_two_slashes a b c) as Hlen.
      destruct (split_slash (a ++ "/" ++ b ++ "/" ++ c)) as [|p [|q [|t ts]]];
        simpl in Hlen; try lia. reflexivity. }
  split; [exact (H "a" "b" "c") | exact H].
Qed.

(** C1, the failing document: the document of the examples with the binding
    [in1: {source: a/b/c}] is a well-formed node tree, and building it raises
    [ValueError]; no workflow is returned. *)
Theorem init_raises_on_second_slash env :
  Workflow.__init__ env (Some (doc_with (Scalar (PyStr "a/b/c")) [])) = Raise ValueError.
Proof. reflexivity. Qed.

(** C6, the failing document: with the binding [in1: {source: [a/b/c, x]}],
    [x] a declared input, the sequence is iterated from its first reference,
    whose unpacking raises [ValueError]; the loop over the references stops
    there, whatever follows in the sequence and whatever was collected
    before, so [x] is given no attempt and no workflow is built.  The same
    sequence without its first reference yields the connection from [x]. *)
Theorem sequence_source_stops_at_second_slash env :
  iter_scalar_or_list slashes_then_x = [str "a/b/c"; str "x"]
  /\ Workflow.__init__ env (Some (doc_with slashes_then_x [])) = Raise ValueError
  /\ (forall self label sink rest connections problems,
        Workflow.connect_sources env self label sink (str "a/b/c" :: rest)
          connections problems
        = Raise ValueError)
  /\ Workflow.__init__ env (Some (doc_with (CWLList 11 11 [str "x"]) []))
     = Ok (wf_with (CWLList 11 11 [str "x"]) [] [conn_x_in1]).
Proof.
  split; [reflexivity | split; [reflexivity | split; [|reflexivity]]].
  intros self label sink rest connections problems. reflexivity.
Qed.

(** ** The diagnostic of a dangling reference *)

(** C4, the failing document: with [in1: {source: y}] and no input [y], the
    workflow is built with no connection and one problem; the problem starts
    with the representation of the step, not with its id, so it is not
    [A.in1: No such WF input y] and does not contain it. *)
Theorem dangling_reference_diagnostic env :
  Workflow.__init__ env (Some (doc_with (Scalar (PyStr "y")) []))
  = Ok (wf_with (Scalar (PyStr "y")) [dangling_y_problem] [])
  /\ dangling_y_problem
     = (Step.__repr__ built_step_A ++ "." ++ "in1" ++ ": " ++ "No such WF input y")%string
  /\ dangling_y_problem <> "A.in1: No such WF input y"
  /\ str_in "A.in1: No such WF input y" dangling_y_problem = false.
Proof.
  split; [reflexivity | split; [reflexivity | split; [discriminate | reflexivity]]].
Qed.

(** * Further properties *)

(** ** Equality *)

Lemma port_eq_refl (p : Port.t) : Port.__eq__ p p = true.
Proof. apply port_eq_iff. split; reflexivity. Qed.

Lemma implb_true (a b : bool) : (a = true -> b = true) -> implb a b = true.
Proof. destruct a, b; simpl; auto. Qed.

(** X1: [__eq__] of ports and of connections is reflexive, symmetric and
    transitive, and it does not look at [line]: ports that differ only in
    their line are equal, and so are connections that differ only in their
    line or in the lines of their ports. *)
Theorem eq_equivalence_ignoring_line :
  (forall p, Port.__eq__ p p = true)
  /\ (forall p q, Port.__eq__ p q = Port.__eq__ q p)
  /\ (forall p q r, implb (Port.__eq__ p q && Port.__eq__ q r) (Port.__eq__ p r) = true)
  /\ (forall n k l1 l2, Port.__eq__ (Port.mk n k l1) (Port.mk n k l2) = true)
  /\ (forall c, Connection.__eq__ c c = true)
  /\ (forall c d, Connection.__eq__ c d = Connection.__eq__ d c)
  /\ (forall c d e, implb (Connection.__eq__ c d && Connection.__eq__ d e)
                      (Connection.__eq__ c e) = true)
  /\ (forall s s' d d' l1 l2,
         Connection.__eq__ (Connection.mk s d l1) (Connection.mk s' d' l2)
         = Port.__eq__ s s' && Port.__eq__ d d').
Proof.
  repeat match goal with |- _ /\ _ => split end.
  - apply port_eq_refl.
  - apply port_eq_sym.
  - intros p q r. apply implb_true. rewrite andb_true_iff. intros [H1 H2].
    eapply port_eq_trans; eassumption.
  - intros n k l1 l2. apply port_eq_iff. split; reflexivity.
  - intros c. apply connection_eq_iff. split; apply port_eq_refl.
  - intros c d. unfold Connection.__eq__.
    rewrite (port_eq_sym (Connection.src c)), (port_eq_sym (Connection.dst c)).
    reflexivity.
  - intros c d e. apply implb_true. rewrite andb_true_iff. intros [H1 H2].
    apply connection_eq_iff in H1, H2. apply connection_eq_iff.
    destruct H1, H2. split; eapply port_eq_trans; eassumption.
  - reflexivity.
Qed.

(** ** Resolution of one reference *)

(** X2: what [_get_source] does with a reference of at most one slash.
    [None] and the empty string raise [No source specified].  A non-empty
    name without a slash is looked up in the inputs only: the stored port, or
    [No such WF input <name>].  A reference [<a>/<b>] is looked up in the
    steps and then in the sources of step [a]: the stored port,
    [No such source step <a>] or [No such source port <a>.<b>]; the inputs are
    not consulted. *)
Theorem get_source_resolution env self x a b :
  x <> "" -> str_in "/" x = false -> str_in "/" a = false -> str_in "/" b = false ->
  Workflow._get_source env self (Scalar PyNone)
  = Raise (WFConnectionError "No source specified")
  /\ Workflow._get_source env self (Scalar (PyStr ""))
     = Raise (WFConnectionError "No source specified")
  /\ Workflow._get_source env self (Scalar (PyStr x))
     = match dict_get (Workflow.inputs self) x with
       | Some p => Ok p
       | None => Raise (WFConnectionError ("No such WF input " ++ x))
       end
  /\ Workflow._get_source env self (Scalar (PyStr (a ++ "/" ++ b)))
     = match dict_get (Workflow.steps self) a with
       | None => Raise (WFConnectionError ("No such source step " ++ a))
       | Some st =>
           match dict_get (Step.available_sources st) b with
           | None => Raise (WFConnectionError ("No such source port " ++ a ++ "." ++ b))
           | Some p => Ok p
           end
       end.
Proof.
  intros Hx Hs Ha Hb. split; [reflexivity | split; [reflexivity | split]].
  - rewrite (get_source_input env self x Hx Hs).
    destruct (dict_get (Workflow.inputs self) x); reflexivity.
  - apply get_source_step; assumption.
Qed.

Lemma get_source_resolution_witness :
  Workflow._get_source no_files wf_two_sources (Scalar (PyStr "x")) = Ok port_x
  /\ Workflow._get_source no_files wf_two_sources (Scalar (PyStr "z"))
     = Raise (WFConnectionError "No such WF input z")
  /\ Workflow._get_source no_files wf_two_sources (Scalar (PyStr "A/out1")) = Ok port_A_out1
  /\ Workflow._get_source no_files wf_two_sources (Scalar (PyStr "A/in1"))
     = Raise (WFConnectionError "No such source port A.in1")
  /\ Workflow._get_source no_files wf_two_sources (Scalar (PyStr "B/out1"))
     = Raise (WFConnectionError "No such source step B").
Proof.
  split; [|split; [|split; [|split]]].
  - apply (get_source_resolution no_files wf_two_sources "x" "A" "out1");
      [discriminate | reflexivity | reflexivity | reflexivity].
  - apply (get_source_resolution no_files wf_two_sources "z" "A" "out1");
      [discriminate | reflexivity | reflexivity | reflexivity].
  - apply (get_source_resolution no_files wf_two_sources "x" "A" "out1");
      [discriminate | reflexivity | reflexivity | reflexivity].
  - apply (get_source_resolution no_files wf_two_sources "x" "A" "in1");
      [discriminate | reflexivity | reflexivity | reflexivity].
  - apply (get_source_resolution no_files wf_two_sources "x" "B" "out1");
      [discriminate | reflexivity | reflexivity | reflexivity].
Defined.

(** ** Steps *)

Lemma from_doc_run_present env step_id line step_doc root errs :
  node_contains step_doc "run" = Ok true ->
  Step.from_doc env step_id line step_doc root errs
  = (run <- node_getitem step_doc "run" ;;
     '(sub_process, errors) <-
       match run with
       | Scalar (PyStr r) =>
           let sub_p_path := resolve_run env root r in
           match (text <- open_read env sub_p_path ;; parse_cwl_to_dict env text) with
           | Ok n => Ok (VNode n, errs)
           | Raise FileNotFoundError =>
               Ok (VEmptyDict, errs ++ [Step.not_found_msg env r sub_p_path])
           | Raise e => Raise e
           end
       | _ => Ok (VNode run, errs)
       end ;;
     in_items <- (ins <- value_get sub_process "inputs" ;; iter_lom ins) ;;
     out_items <- (outs <- value_get sub_process "outputs" ;; iter_lom outs) ;;
     Ok (Step.mk line step_id (OrderedDict (Step.interface_ports step_id in_items))
           (OrderedDict (Step.interface_ports step_id out_items)), errors)).
Proof.
  intros Hc. unfold Step.from_doc.
  assert (Hn : match step_doc with
               | Scalar PyNone => Ok true
               | _ => b <- node_contains step_doc "run" ;; Ok (negb b)
               end = Ok false).
  { destruct step_doc as [[| | | |]| |]; try discriminate Hc; rewrite Hc; reflexivity. }
  rewrite Hn. cbn [bind].
  destruct (node_getitem step_doc "run") as [run|e]; [|reflexivity]. cbn [bind].
  match goal with |- bind ?m _ = bind ?m _ => destruct m as [[sp er]|e] end;
    [|reflexivity].
  cbn [bind]. destruct (value_get sp "inputs") as [ins|e]; [|reflexivity]. cbn [bind].
  destruct (iter_lom ins) as [ii|e]; [|reflexivity]. cbn [bind].
  destruct (value_get sp "outputs") as [outs|e]; [|reflexivity]. cbn [bind].
  destruct (iter_lom outs) as [oi|e]; reflexivity.
Qed.

(** X3: a step without [run] ([None], or a document that does not contain
    [run]) is built with two empty plain dictionaries as ports, leaves the
    problem list as it is and reads nothing from outside; its representation
    is [dict_keys([])-><id>->dict_keys([])]. *)
Theorem from_doc_without_run env step_id line step_doc root errs :
  step_doc = Scalar PyNone \/ node_contains step_doc "run" = Ok false ->
  Step.from_doc env step_id line step_doc root errs
  = Ok (Step.mk line step_id empty_dict empty_dict, errs)
  /\ Step.__repr__ (Step.mk line step_id empty_dict empty_dict)
     = ("dict_keys([])->" ++ step_id ++ "->dict_keys([])")%string.
Proof.
  intros H. split; [|reflexivity]. unfold Step.from_doc.
  destruct H as [->|H]; [reflexivity|].
  destruct step_doc as [[| | | |]| |]; try discriminate H; rewrite H; reflexivity.
Qed.

Lemma from_doc_without_run_witness :
  Step.from_doc no_files "B" (5, 5)%Z (CWLMap 5 5 [("in", CWLMap 5 5 [])]) "/wf/main.cwl" []
  = Ok (Step.mk (5, 5)%Z "B" empty_dict empty_dict, [])
  /\ Step.__repr__ (Step.mk (5, 5)%Z "B" empty_dict empty_dict)
     = "dict_keys([])->B->dict_keys([])".
Proof.
  apply (from_doc_without_run no_files "B" (5, 5)%Z (CWLMap 5 5 [("in", CWLMap 5 5 [])])
           "/wf/main.cwl" []).
  right; reflexivity.
Defined.

(** X4: for a step whose [run] is an inline mapping with distinct input keys
    and distinct output keys, [available_sinks] lists the inputs and
    [available_sources] the outputs of the sub-process, in document order,
    each as the port [(step_id, key)] without line; an absent section gives
    no port, the problem list is unchanged and nothing is read from outside
    (the result is the same in every environment). *)
Theorem from_doc_inline_run env env' step_id line s e sd sr er rd ins outs root errs :
  assoc "run" sd = Some (CWLMap sr er rd) ->
  get_items (CWLMap sr er rd) "inputs" = Ok ins ->
  get_items (CWLMap sr er rd) "outputs" = Ok outs ->
  NoDup (map fst ins) -> NoDup (map fst outs) ->
  exists st,
    Step.from_doc env step_id line (CWLMap s e sd) root errs = Ok (st, errs)
    /\ Step.from_doc env' step_id line (CWLMap s e sd) root errs = Ok (st, errs)
    /\ Step.id st = step_id /\ Step.line st = line
    /\ items (Step.available_sinks st)
       = map (fun kv => (fst kv, Port.mk (Some step_id) (fst kv) None)) ins
    /\ items (Step.available_sources st)
       = map (fun kv => (fst kv, Port.mk (Some step_id) (fst kv) None)) outs.
Proof.
  intros Hrun Hins Houts Hni Hno.
  assert (Hc : node_contains (CWLMap s e sd) "run" = Ok true).
  { rewrite node_contains_map. unfold has_key. rewrite Hrun. reflexivity. }
  assert (Hg : node_getitem (CWLMap s e sd) "run" = Ok (CWLMap sr er rd)).
  { unfold node_getitem. simpl. rewrite Hrun. reflexivity. }
  eexists. split; [|split].
  - rewrite (from_doc_run_present _ _ _ _ _ _ Hc), Hg. cbn [bind].
    change (ins0 <- value_get (VNode (CWLMap sr er rd)) "inputs" ;; iter_lom ins0)
      with (get_items (CWLMap sr er rd) "inputs").
    change (outs0 <- value_get (VNode (CWLMap sr er rd)) "outputs" ;; iter_lom outs0)
      with (get_items (CWLMap sr er rd) "outputs").
    rewrite Hins, Houts. reflexivity.
  - rewrite (from_doc_run_present _ _ _ _ _ _ Hc), Hg. cbn [bind].
    change (ins0 <- value_get (VNode (CWLMap sr er rd)) "inputs" ;; iter_lom ins0)
      with (get_items (CWLMap sr er rd) "inputs").
    change (outs0 <- value_get (VNode (CWLMap sr er rd)) "outputs" ;; iter_lom outs0)
      with (get_items (CWLMap sr er rd) "outputs").
    rewrite Hins, Houts. reflexivity.
  - cbn [Step.id Step.line Step.available_sinks Step.available_sources].
    unfold Step.interface_ports.
    split; [reflexivity | split; [reflexivity | split]];
      apply OrderedDict_NoDup; rewrite map_map; assumption.
Qed.

Lemma from_doc_inline_run_witness :
  exists st,
    Step.from_doc no_files "A" (6, 11)%Z (step_A (str "x")) "/wf/main.cwl" [] = Ok (st, [])
    /\ Step.from_doc locked_files "A" (6, 11)%Z (step_A (str "x")) "/wf/main.cwl" []
       = Ok (st, [])
    /\ Step.id st = "A" /\ Step.line st = (6, 11)%Z
    /\ items (Step.available_sinks st)
       = map (fun kv => (fst kv, Port.mk (Some "A") (fst kv) None))
           [("in1", CWLMap 8 8 [("type", str "string")])]
    /\ items (Step.available_sources st)
       = map (fun kv => (fst kv, Port.mk (Some "A") (fst kv) None))
           [("out1", CWLMap 9 9 [("type", str "string")])].
Proof.
  apply (from_doc_inline_run no_files locked_files "A" (6, 11)%Z 6 11
           (step_A_entries (str "x")) 7 9
           [("inputs", CWLMap 8 8 [("in1", CWLMap 8 8 [("type", str "string")])]);
            ("outputs", CWLMap 9 9 [("out1", CWLMap 9 9 [("type", str "string")])])]
           [("in1", CWLMap 8 8 [("type", str "string")])]
           [("out1", CWLMap 9 9 [("type", str "string")])] "/wf/main.cwl" []).
  - reflexivity.
  - reflexivity.
  - reflexivity.
  - repeat constructor; simpl; intuition.
  - repeat constructor; simpl; intuition.
Defined.

(** X5: a step whose [run] is a path to a file that is read and parsed to a
    node other than a string is built exactly as the step whose [run] is that
    node inline: [from_doc] reads a step document through its [run] only. *)
Theorem from_doc_file_as_inline env step_id line step_doc step_doc' root errs r text n :
  node_contains step_doc "run" = Ok true ->
  node_getitem step_doc "run" = Ok (Scalar (PyStr r)) ->
  open_read env (resolve_run env root r) = Ok text ->
  parse_cwl_to_dict env text = Ok n ->
  (forall x, n <> Scalar (PyStr x)) ->
  node_contains step_doc' "run" = Ok true ->
  node_getitem step_doc' "run" = Ok n ->
  Step.from_doc env step_id line step_doc root errs
  = Step.from_doc env step_id line step_doc' root errs.
Proof.
  intros Hc Hg Ho Hp Hn Hc' Hg'.
  rewrite (from_doc_run_present _ _ _ _ _ _ Hc), (from_doc_run_present _ _ _ _ _ _ Hc').
  rewrite Hg, Hg'. cbn [bind]. rewrite Ho. cbn [bind]. rewrite Hp.
  destruct n as [[| x | | |]| |]; try reflexivity.
  contradiction (Hn x). reflexivity.
Qed.

Lemma from_doc_file_as_inline_witness :
  Step.from_doc one_file "S" (4, 4)%Z (CWLMap 4 4 [("run", str "sub.cwl")]) "/wf/main.cwl" []
  = Step.from_doc one_file "S" (4, 4)%Z (CWLMap 4 4 [("run", sub_process_node)])
      "/wf/main.cwl" [].
Proof.
  apply (from_doc_file_as_inline one_file "S" (4, 4)%Z
           (CWLMap 4 4 [("run", str "sub.cwl")]) (CWLMap 4 4 [("run", sub_process_node)])
           "/wf/main.cwl" [] "sub.cwl" "sub" sub_process_node).
  - reflexivity.
  - reflexivity.
  - reflexivity.
  - reflexivity.
  - discriminate.
  - reflexivity.
  - reflexivity.
Defined.

(** X6: only [FileNotFoundError] is caught.  When opening the file of a
    step's [run] raises another exception, [from_doc] raises it, whatever the
    problems so far, and no workflow is built from a document that declares
    such a step. *)
Theorem unreadable_sub_workflow_aborts env doc step_items k v run e :
  get_items (cwl_dict doc) "steps" = Ok step_items ->
  In (k, v) step_items ->
  node_contains v "run" = Ok true ->
  node_getitem v "run" = Ok (Scalar (PyStr run)) ->
  open_read env (resolve_run env (path doc) run) = Raise e ->
  e <> FileNotFoundError ->
  (forall ln errs, Step.from_doc env k ln v (path doc) errs = Raise e)
  /\ forall wf, Workflow.__init__ env (Some doc) <> Ok wf.
Proof.
  intros Hitems Hin Hc Hg Ho He.
  assert (Hfrom : forall ln errs, Step.from_doc env k ln v (path doc) errs = Raise e).
  { intros ln errs. rewrite (from_doc_run_present _ _ _ _ _ _ Hc), Hg. cbn [bind].
    rewrite Ho. cbn [bind]. destruct e; try reflexivity. contradiction He. reflexivity. }
  split; [exact Hfrom|].
  intros wf H. apply init_inv in H.
  destruct H as (p0 & ii & ip & oi & op & si & sts & p1 &
                 _ & _ & _ & _ & _ & Hsi & Hsts & _).
  rewrite Hitems in Hsi. injection Hsi as <-.
  destruct (build_steps_In _ _ _ _ _ _ _ _ Hsts Hin)
    as (ln & st & e0 & e1 & _ & Hst & _).
  rewrite Hfrom in Hst. discriminate Hst.
Qed.

Lemma unreadable_sub_workflow_aborts_witness :
  (forall ln errs,
      Step.from_doc locked_files "A" ln (CWLMap 4 4 [("run", str "sub.cwl")])
        (path no_outputs_doc) errs
      = Raise (OtherError "PermissionError"))
  /\ forall wf, Workflow.__init__ locked_files (Some no_outputs_doc) <> Ok wf.
Proof.
  apply (unreadable_sub_workflow_aborts locked_files no_outputs_doc
           [("A", CWLMap 4 4 [("run", str "sub.cwl")]);
            ("B", CWLMap 5 5 [("run", CWLMap 5 5 [("inputs", CWLMap 5 5 []);
                                                  ("outputs", CWLMap 5 5 [])])])]
           "A" (CWLMap 4 4 [("run", str "sub.cwl")]) "sub.cwl"
           (OtherError "PermissionError")).
  - reflexivity.
  - left; reflexivity.
  - reflexivity.
  - reflexivity.
  - reflexivity.
  - discriminate.
Defined.

(** ** What the passes append *)

Lemma pass_refl Pc Pd c p : pass_appends Pc Pd c c p p.
Proof.
  exists [], []. rewrite !app_nil_r. repeat split; constructor.
Qed.

Lemma pass_trans Pc Pd c1 c2 c3 p1 p2 p3 :
  pass_appends Pc Pd c1 c2 p1 p2 -> pass_appends Pc Pd c2 c3 p2 p3 ->
  pass_appends Pc Pd c1 c3 p1 p3.
Proof.
  intros (n1 & e1 & -> & -> & Hn1 & He1) (n2 & e2 & -> & -> & Hn2 & He2).
  exists (n1 ++ n2), (e1 ++ e2). rewrite !app_assoc.
  split; [reflexivity | split; [reflexivity | split]]; apply Forall_app; split; assumption.
Qed.

Lemma pass_weaken (Pc Pc' : Connection.t -> Prop) (Pd Pd' : string -> Prop) c c' p p' :
  (forall x, Pc x -> Pc' x) -> (forall d, Pd d -> Pd' d) ->
  pass_appends Pc Pd c c' p p' -> pass_appends Pc' Pd' c c' p p'.
Proof.
  intros Hc Hd (n & e & -> & -> & Hn & He). exists n, e.
  split; [reflexivity | split; [reflexivity | split]];
    eapply Forall_impl; eauto.
Qed.

Lemma pass_connection (Pc : Connection.t -> Prop) Pd c p x :
  Pc x -> pass_appends Pc Pd c (c ++ [x]) p p.
Proof.
  intros H. exists [x], []. rewrite app_nil_r.
  split; [reflexivity | split; [reflexivity | split]]; repeat constructor. exact H.
Qed.

Lemma pass_problem Pc (Pd : string -> Prop) c p d :
  Pd d -> pass_appends Pc Pd c c p (p ++ [d]).
Proof.
  intros H. exists [], [d]. rewrite app_nil_r.
  split; [reflexivity | split; [reflexivity | split]]; repeat constructor. exact H.
Qed.

Lemma get_step_source_exists self _src p :
  Workflow._get_step_source self _src = Ok p -> source_exists self p.
Proof.
  unfold Workflow._get_step_source.
  destruct _src as [[| s | | |]| |]; try discriminate.
  destruct (split_slash s) as [|a [|b [|? ?]]]; try discriminate.
  destruct (dict_get (Workflow.steps self) a) as [st|] eqn:Hst; [|discriminate].
  destruct (dict_get (Step.available_sources st) b) as [q|] eqn:Hq; [|discriminate].
  intros H; injection H as <-. right. exists a, st, b. split; assumption.
Qed.

Lemma get_step_source_failure self _src m :
  Workflow._get_step_source self _src = Raise (WFConnectionError m) ->
  resolution_failure m.
Proof.
  unfold Workflow._get_step_source.
  destruct _src as [[| s | | |]| |]; try discriminate.
  destruct (split_slash s) as [|a [|b [|? ?]]]; try discriminate.
  destruct (dict_get (Workflow.steps self) a) as [st|].
  - destruct (dict_get (Step.available_sources st) b); [discriminate|].
    intros H; injection H as <-. right; right; right. exists a, b. reflexivity.
  - intros H; injection H as <-. right; right; left. exists a. reflexivity.
Qed.

Lemma get_source_exists env self _src p :
  Workflow._get_source env self _src = Ok p -> source_exists self p.
Proof.
  unfold Workflow._get_source.
  destruct _src as [[| s | | |]| s e obj | s e obj]; try discriminate.
  - destruct s as [|c s]; [discriminate|].
    destruct (str_in "/" (String c s)); [apply get_step_source_exists|].
    destruct (dict_get (Workflow.inputs self) (String c s)) as [q|] eqn:Hq;
      [|discriminate].
    intros H; injection H as <-. left. eauto.
  - intros H. bind_inv H. destruct a; discriminate.
  - intros H. bind_inv H. destruct a; discriminate.
Qed.

Lemma keyed_raise (l : list Node) (e : exn) :
  keyed l = Raise e -> e = TypeError \/ e = KeyError.
Proof.
  induction l as [|x l IH]; simpl; [discriminate|].
  destruct (item_id x) as [k|e0] eqn:Hk; simpl.
  - destruct (keyed l) as [kvs|e1]; simpl; [discriminate|].
    intros H; injection H as <-. apply IH. reflexivity.
  - intros H; injection H as <-. unfold item_id in Hk.
    destruct x as [v | s e obj | s e obj]; try (injection Hk as <-; auto).
    destruct (assoc "id" obj) as [[[| | | |]| |]|]; try discriminate;
      injection Hk as <-; auto.
Qed.

Lemma get_source_failure env self _src m :
  Workflow._get_source env self _src = Raise (WFConnectionError m) ->
  resolution_failure m.
Proof.
  unfold Workflow._get_source.
  destruct _src as [[| s | | |]| s e obj | s e obj]; try discriminate.
  - intros H; injection H as <-. left; reflexivity.
  - destruct s as [|c s]; [intros H; injection H as <-; left; reflexivity|].
    destruct (str_in "/" (String c s)); [apply get_step_source_failure|].
    destruct (dict_get (Workflow.inputs self) (String c s)); [discriminate|].
    intros H; injection H as <-. right; left. exists (String c s). reflexivity.
  - rewrite node_contains_map. destruct (has_key "/" obj); simpl; try discriminate.
    intros H; injection H as <-. right; left.
    exists (obj_str env (CWLMap s e obj)). reflexivity.
  - destruct (node_contains (CWLList s e obj) "/") as [[|]|e0] eqn:Hc; simpl;
      try discriminate.
    + intros H; injection H as <-. right; left.
      exists (obj_str env (CWLList s e obj)). reflexivity.
    + unfold node_contains in Hc. simpl in Hc.
      destruct (keyed obj) as [kvs|e1] eqn:Hk; [discriminate|].
      simpl in Hc. injection Hc as <-.
      destruct (keyed_raise _ _ Hk) as [->| ->]; discriminate.
Qed.

Lemma sources_pass env self label sink srcs c p c' p' :
  Workflow.connect_sources env self label sink srcs c p = Ok (c', p') ->
  pass_appends
    (fun x => source_exists self (Connection.src x) /\ Connection.dst x = sink
              /\ Connection.line x = Port.line (Connection.src x))
    (fun d => exists r, resolution_failure r /\ d = (label ++ ": " ++ r)%string)
    c c' p p'.
Proof.
  revert c p. induction srcs as [|_src srcs IH]; simpl; intros c p H.
  - injection H as <- <-. apply pass_refl.
  - destruct (Workflow._get_source env self _src) as [source|e] eqn:Hsrc.
    + eapply pass_trans; [|apply IH, H]. apply pass_connection.
      simpl. split; [eapply get_source_exists; eassumption | split; reflexivity].
    + destruct e; try discriminate.
      eapply pass_trans; [|apply IH, H]. apply pass_problem.
      exists msg. split; [eapply get_source_failure; eassumption | reflexivity].
Qed.

Lemma str_app_assoc (a b c : string) : ((a ++ b) ++ c = a ++ b ++ c)%string.
Proof. induction a as [|x a IH]; simpl; [reflexivity | rewrite IH; reflexivity]. Qed.



Lemma sinks_pass env self sid this_step bindings c p c' p' :
  dict_get (Workflow.steps self) sid = Some this_step ->
  Workflow.connect_sinks env self this_step bindings c p = Ok (c', p') ->
  pass_appends (into_step self) (step_pass_diag self) c c' p p'.
Proof.
  intros Hst. revert c p.
  induction bindings as [|[k port_doc] bindings IH]; simpl; intros c p H.
  - injection H as <- <-. apply pass_refl.
  - destruct (dict_get (Step.available_sinks this_step) k) as [sink|] eqn:Hs.
    + bind_inv H. destruct a.
      * bind_inv H. bind_inv H. destruct a0 as [c1 p1].
        eapply pass_trans; [|apply IH, H].
        eapply pass_weaken; [| |eapply sources_pass; eassumption].
        -- intros x (Hx & Hd & Hl). split; [exact Hx | split; [|exact Hl]].
           rewrite Hd. exists sid, this_step, k. split; assumption.
        -- intros d (r & Hfail & ->). right; right. exists sid, this_step, k, r.
           split; [exact Hst | split; [|split; [exact Hfail | rewrite str_app_assoc; reflexivity]]].
           unfold dict_contains. rewrite Hs. reflexivity.
      * apply IH, H.
    + eapply pass_trans; [|apply IH, H]. apply pass_problem.
      right; left. exists sid, this_step, k.
      split; [exact Hst | split; [exact Hs | reflexivity]].
Qed.

Lemma steps_pass env self step_items c p c' p' :
  Workflow.connect_steps env self step_items c p = Ok (c', p') ->
  pass_appends (into_step self) (step_pass_diag self) c c' p p'.
Proof.
  revert c p.
  induction step_items as [|[step_id step_doc] step_items IH]; simpl; intros c p H.
  - injection H as <- <-. apply pass_refl.
  - destruct step_doc as [v | s e obj | s e obj].
    + eapply pass_trans; [|apply IH, H]. apply pass_problem. left.
      exists step_id. reflexivity.
    + bind_inv H. bind_inv H. bind_inv H. destruct a1 as [c1 p1].
      eapply pass_trans; [|apply IH, H].
      destruct (dict_get (Workflow.steps self) step_id) as [st|] eqn:Hst;
        [|discriminate].
      injection Hr as <-. eapply sinks_pass; eassumption.
    + eapply pass_trans; [|apply IH, H]. apply pass_problem. left.
      exists step_id. reflexivity.
Qed.

Lemma outputs_pass env self out_items c p c' p' :
  Workflow.connect_outputs env self out_items c p = Ok (c', p') ->
  pass_appends (into_output self) (output_pass_diag self) c c' p p'.
Proof.
  revert c p.
  induction out_items as [|[out_id out_doc] out_items IH]; simpl; intros c p H.
  - injection H as <- <-. apply pass_refl.
  - bind_inv H. bind_inv H. destruct a0.
    + bind_inv H. bind_inv H. destruct a1 as [c1 p1].
      eapply pass_trans; [|apply IH, H].
      destruct (dict_get (Workflow.outputs self) out_id) as [q|] eqn:Hq; [|discriminate].
      injection Hr as <-.
      eapply pass_weaken; [| |eapply sources_pass; eassumption].
      * intros x (Hx & Hd & Hl). split; [exact Hx | split; [|exact Hl]].
        rewrite Hd. exists out_id. exact Hq.
      * intros d (r & Hfail & ->). exists out_id, q, r.
        split; [exact Hq | split; [exact Hfail | reflexivity]].
    + apply IH, H.
Qed.

Lemma from_doc_diag env step_id line step_doc root errs st errs' :
  Step.from_doc env step_id line step_doc root errs = Ok (st, errs') ->
  exists extra, errs' = errs ++ extra /\ Forall (not_found_diag env root) extra.
Proof.
  unfold Step.from_doc. intros H. bind_inv H. destruct a.
  - injection H as _ <-. exists []. split; [symmetry; apply app_nil_r | constructor].
  - bind_inv H. bind_inv H. destruct a0 as [sub_process errors].
    bind_inv H. bind_inv H. bind_inv H. bind_inv H. injection H as _ <-.
    clear - Hr1.
    assert (Hsame : exists extra, errs = errs ++ extra
                                  /\ Forall (not_found_diag env root) extra).
    { exists []. split; [symmetry; apply app_nil_r | constructor]. }
    destruct a as [[| r | | |]| |]; try (injection Hr1 as _ <-; exact Hsame).
    destruct (bind _ _) as [n|[]]; try discriminate; injection Hr1 as _ <-;
      [exact Hsame|].
    eexists. split; [reflexivity|]. repeat constructor. exists r. reflexivity.
Qed.

Lemma build_steps_diag env root kvs p sts p' :
  Workflow.build_steps env root kvs p = Ok (sts, p') ->
  exists extra, p' = p ++ extra /\ Forall (not_found_diag env root) extra.
Proof.
  revert p sts p'. induction kvs as [|[k v] kvs IH]; simpl; intros p sts p' H.
  - injection H as _ <-. exists []. split; [symmetry; apply app_nil_r | constructor].
  - bind_inv H. bind_inv H. destruct a0 as [st p1].
    bind_inv H. destruct a0 as [sts' p2]. injection H as _ <-.
    apply from_doc_diag in Hr0. destruct Hr0 as (e1 & -> & H1).
    apply IH in Hr1. destruct Hr1 as (e2 & -> & H2).
    exists (e1 ++ e2). split; [symmetry; apply app_assoc|].
    apply Forall_app; split; assumption.
Qed.


Lemma built_passes env doc wf :
  Workflow.__init__ env (Some doc) = Ok wf ->
  exists p0 nf a sd b od,
    Workflow.check_sections (cwl_dict doc) Workflow.required_sections [] = Ok p0
    /\ Workflow.connections wf = a ++ b
    /\ Workflow.problems_with_wf wf = p0 ++ nf ++ sd ++ od
    /\ Forall (not_found_diag env (path doc)) nf
    /\ Forall (into_step wf) a /\ Forall (step_pass_diag wf) sd
    /\ Forall (into_output wf) b /\ Forall (output_pass_diag wf) od.
Proof.
  intros H. apply init_inv in H.
  destruct H as (p0 & ii & ip & oi & op & si & sts & p1 &
                 Hp0 & _ & _ & _ & _ & _ & Hsts & Hl & E).
  apply build_steps_diag in Hsts. destruct Hsts as (nf & -> & Hnf).
  unfold Workflow._list_connections in Hl.
  bind_inv Hl. bind_inv Hl. destruct a0 as [c1 pr1]. bind_inv Hl.
  apply steps_pass in Hr0. destruct Hr0 as (a' & sd & -> & -> & Ha & Hsd).
  apply outputs_pass in Hl. destruct Hl as (b & od & Hc & Hp & Hb & Hod).
  exists p0, nf, a', sd, b, od. cbn [Workflow.problems_with_wf] in Hp.
  rewrite Hc, Hp, E. cbn [Workflow.connections Workflow.problems_with_wf].
  rewrite <- !app_assoc. simpl.
  repeat match goal with |- _ /\ _ => split end; try assumption; reflexivity.
Qed.

(** ** The graph of a built workflow *)

(** X7: in a built workflow every connection joins stored ports: its [src]
    is a workflow input or an available source of a stored step, its [dst]
    an available sink of a stored step or a workflow output, and its line is
    the line of [src].  The list is in discovery order: all connections into
    steps (whose [dst] has a [node_id]) come before all connections into
    workflow outputs (whose [dst] has none). *)
Theorem connections_join_stored_ports env doc wf :
  Workflow.__init__ env (Some doc) = Ok wf ->
  exists a b,
    Workflow.connections wf = a ++ b
    /\ Forall (into_step wf) a
    /\ Forall (into_output wf) b
    /\ Forall (fun c => exists sid k,
                   Connection.dst c = Port.mk (Some sid) k None) a
    /\ Forall (fun c => Port.node_id (Connection.dst c) = None) b.
Proof.
  intros H. pose proof (built_ports_ok _ _ _ H) as (_ & Hout & Hsteps).
  destruct (built_passes _ _ _ H) as (p0 & nf & a & sd & b & od &
                                      _ & Hc & _ & _ & Ha & _ & Hb & _).
  exists a, b. split; [exact Hc | split; [exact Ha | split; [exact Hb | split]]].
  - eapply Forall_impl; [|exact Ha].
    intros c (_ & (sid & st & k & Hst & Hk) & _).
    destruct (Hsteps _ _ Hst) as (_ & Hsi & _).
    exists sid, k. apply Hsi, assoc_In, Hk.
  - eapply Forall_impl; [|exact Hb].
    intros c (_ & (k & Hk) & _). apply (Hout _ _ Hk).
Qed.

Lemma init_with_output :
  Workflow.__init__ no_files (Some (doc_with two_sources output_o)) = Ok wf_with_output.
Proof. reflexivity. Qed.

Lemma connections_join_stored_ports_witness :
  exists a b,
    Workflow.connections wf_with_output = a ++ b
    /\ Forall (into_step wf_with_output) a
    /\ Forall (into_output wf_with_output) b
    /\ Forall (fun c => exists sid k,
                   Connection.dst c = Port.mk (Some sid) k None) a
    /\ Forall (fun c => Port.node_id (Connection.dst c) = None) b.
Proof.
  apply (connections_join_stored_ports no_files (doc_with two_sources output_o)
           wf_with_output).
  reflexivity.
Defined.



(** ** Ports and steps come from declarations *)

Lemma wf_ports_In kvs ports k p :
  Workflow.wf_ports kvs = Ok ports -> In (k, p) ports ->
  exists v ln, In (k, v) kvs /\ line_span v = Ok ln /\ p = Port.mk None k (Some ln).
Proof.
  revert ports. induction kvs as [|[k0 v0] kvs IH]; simpl; intros ports H Hin.
  - injection H as <-. contradiction.
  - bind_inv H. bind_inv H. injection H as <-. destruct Hin as [E|Hin].
    + injection E as <- <-. exists v0, a. auto.
    + destruct (IH _ Hr0 Hin) as (v & ln & H1 & H2 & H3). exists v, ln. auto.
Qed.

Lemma build_steps_In_stored env root kvs problems sts problems' k st :
  Workflow.build_steps env root kvs problems = Ok (sts, problems') ->
  In (k, st) sts ->
  exists v ln, In (k, v) kvs /\ line_span v = Ok ln
               /\ Step.id st = k /\ Step.line st = ln.
Proof.
  revert problems sts problems'.
  induction kvs as [|[k0 v0] kvs IH]; simpl; intros problems sts problems' H Hin.
  - injection H as <- _. contradiction.
  - bind_inv H. bind_inv H. destruct a0 as [st0 p1].
    bind_inv H. destruct a0 as [sts' p2]. injection H as <- _.
    destruct Hin as [E|Hin].
    + injection E as <- <-. apply from_doc_ok in Hr0.
      destruct Hr0 as ((Hid & _) & Hline & _). exists v0, a. auto.
    + destruct (IH _ _ _ Hr1 Hin) as (v & ln & H1 & H2 & H3 & H4).
      exists v, ln. auto.
Qed.

(** X9: the inputs, outputs and steps of a built workflow are the declared
    ones.  Every stored input or output port is [Port(None, k)] with the line
    span of a declaration of [k] in its section; every stored step has the id
    it is stored under and the line span of a declaration of that id in
    [steps]; and every declared key is stored. *)
Theorem built_entries_are_declared env doc wf :
  Workflow.__init__ env (Some doc) = Ok wf ->
  exists in_items out_items step_items,
    get_items (cwl_dict doc) "inputs" = Ok in_items
    /\ get_items (cwl_dict doc) "outputs" = Ok out_items
    /\ get_items (cwl_dict doc) "steps" = Ok step_items
    /\ (forall k p, dict_get (Workflow.inputs wf) k = Some p ->
          exists v ln, In (k, v) in_items /\ line_span v = Ok ln
                       /\ p = Port.mk None k (Some ln))
    /\ (forall k p, dict_get (Workflow.outputs wf) k = Some p ->
          exists v ln, In (k, v) out_items /\ line_span v = Ok ln
                       /\ p = Port.mk None k (Some ln))
    /\ (forall k st, dict_get (Workflow.steps wf) k = Some st ->
          exists v ln, In (k, v) step_items /\ line_span v = Ok ln
                       /\ Step.id st = k /\ Step.line st = ln)
    /\ (forall k, In k (map fst in_items) -> dict_contains (Workflow.inputs wf) k = true)
    /\ (forall k, In k (map fst out_items) -> dict_contains (Workflow.outputs wf) k = true)
    /\ (forall k, In k (map fst step_items) -> dict_contains (Workflow.steps wf) k = true).
Proof.
  intros H. apply init_inv in H.
  destruct H as (p0 & ii & ip & oi & op & si & sts & p1 &
                 _ & Hii & Hip & Hoi & Hop & Hsi & Hsts & _ & E).
  exists ii, oi, si. rewrite E.
  cbn [Workflow.inputs Workflow.outputs Workflow.steps].
  pose proof (wf_ports_shape _ _ Hip) as [Hki _].
  pose proof (wf_ports_shape _ _ Hop) as [Hko _].
  pose proof (build_steps_ok _ _ _ _ _ _ Hsts) as [Hks _].
  assert (Hcontains : forall (V : Type) (pairs : list (string * V)) k,
             In k (map fst pairs) -> dict_contains (OrderedDict pairs) k = true).
  { intros V pairs k Hk. unfold dict_contains.
    destruct (OrderedDict_get_key pairs k Hk) as [v ->]. reflexivity. }
  repeat match goal with |- _ /\ _ => split end; try assumption.
  - intros k p Hk. eapply wf_ports_In; [exact Hip|]. apply OrderedDict_get_In, Hk.
  - intros k p Hk. eapply wf_ports_In; [exact Hop|]. apply OrderedDict_get_In, Hk.
  - intros k st Hk. eapply build_steps_In_stored; [exact Hsts|].
    apply OrderedDict_get_In, Hk.
  - intros k Hk. apply Hcontains. rewrite Hki. exact Hk.
  - intros k Hk. apply Hcontains. rewrite Hko. exact Hk.
  - intros k Hk. apply Hcontains. rewrite Hks. exact Hk.
Qed.

Lemma built_entries_are_declared_witness :
  exists in_items out_items step_items,
    get_items (cwl_dict (doc_with two_sources output_o)) "inputs" = Ok in_items
    /\ get_items (cwl_dict (doc_with two_sources output_o)) "outputs" = Ok out_items
    /\ get_items (cwl_dict (doc_with two_sources output_o)) "steps" = Ok step_items
    /\ (forall k p, dict_get (Workflow.inputs wf_with_output) k = Some p ->
          exists v ln, In (k, v) in_items /\ line_span v = Ok ln
                       /\ p = Port.mk None k (Some ln))
    /\ (forall k p, dict_get (Workflow.outputs wf_with_output) k = Some p ->
          exists v ln, In (k, v) out_items /\ line_span v = Ok ln
                       /\ p = Port.mk None k (Some ln))
    /\ (forall k st, dict_get (Workflow.steps wf_with_output) k = Some st ->
          exists v ln, In (k, v) step_items /\ line_span v = Ok ln
                       /\ Step.id st = k /\ Step.line st = ln)
    /\ (forall k, In k (map fst in_items) ->
                  dict_contains (Workflow.inputs wf_with_output) k = true)
    /\ (forall k, In k (map fst out_items) ->
                  dict_contains (Workflow.outputs wf_with_output) k = true)
    /\ (forall k, In k (map fst step_items) ->
                  dict_contains (Workflow.steps wf_with_output) k = true).
Proof.
  apply (built_entries_are_declared no_files (doc_with two_sources output_o)
           wf_with_output).
  reflexivity.
Defined.

(** ** What [find_connection] reports *)

Lemma find_in_some connections cand ln :
  Workflow.find_in connections cand = Some ln ->
  exists c, In c connections /\ Connection.__eq__ c cand = true
            /\ Connection.line c = Some ln.
Proof.
  induction connections as [|d rest IH]; simpl; [discriminate|].
  destruct (Connection.__eq__ d cand) eqn:Hd.
  - intros H. exists d. auto.
  - intros H. destruct (IH H) as (c & Hin & Hc & Hl). exists c. auto.
Qed.

(** X10: [find_connection] returns [None] when no stored connection equals
    the candidate, on any workflow; on a built workflow a line range [ln] is
    returned only when a stored connection equals the candidate and leads
    from a workflow input, whose stored port has the line [ln]. *)
Theorem find_connection_sound env doc wf cand :
  Workflow.__init__ env (Some doc) = Ok wf ->
  ((forall c, In c (Workflow.connections wf) -> Connection.__eq__ c cand = false) ->
   Workflow.find_connection wf cand = None)
  /\ forall ln, Workflow.find_connection wf cand = Some ln ->
       exists c k,
         In c (Workflow.connections wf)
         /\ Connection.__eq__ c cand = true
         /\ Connection.line c = Some ln
         /\ Connection.src c = Port.mk None k (Some ln)
         /\ dict_get (Workflow.inputs wf) k = Some (Connection.src c)
         /\ Port.node_id (Connection.src cand) = None
         /\ Port.port_id (Connection.src cand) = k.
Proof.
  intros H. split.
  - intros Hnone. apply find_in_none. intros d Hd Hdc.
    rewrite (Hnone d Hd) in Hdc. discriminate Hdc.
  - intros ln Hfind. apply find_in_some in Hfind.
    destruct Hfind as (c & Hin & Hc & Hl).
    pose proof (built_ports_ok _ _ _ H) as (Hinp & _ & _).
    pose proof (built_connections_ok _ _ _ H) as Hall. rewrite Forall_forall in Hall.
    destruct (Hall c Hin) as (Hline & Hsrc & _).
    destruct Hsrc as [(Hn & _ & Hget)|(sid & Hp)].
    + destruct (Hinp _ _ Hget) as (ln' & Hp).
      assert (ln' = ln).
      { pose proof Hl as Hl'. rewrite Hline, Hp in Hl'. simpl in Hl'. congruence. }
      subst ln'. exists c, (Port.port_id (Connection.src c)).
      pose proof Hc as Hc'. apply connection_eq_iff in Hc'. destruct Hc' as [Hs _].
      apply port_eq_iff in Hs. destruct Hs as [Hs1 Hs2].
      repeat match goal with |- _ /\ _ => split end; try assumption.
      * rewrite <- Hs1. exact Hn.
      * symmetry. exact Hs2.
    + rewrite Hline, Hp in Hl. discriminate Hl.
Qed.

Lemma find_connection_sound_witness :
  exists c k,
    In c (Workflow.connections wf_two_sources)
    /\ Connection.__eq__ c (Connection.mk port_x port_A_in1 None) = true
    /\ Connection.line c = Some (3, 3)%Z
    /\ Connection.src c = Port.mk None k (Some (3, 3)%Z)
    /\ dict_get (Workflow.inputs wf_two_sources) k = Some (Connection.src c)
    /\ Port.node_id (Connection.src (Connection.mk port_x port_A_in1 None)) = None
    /\ Port.port_id (Connection.src (Connection.mk port_x port_A_in1 None)) = k.
Proof.
  apply (find_connection_sound no_files (doc_with two_sources []) wf_two_sources
           (Connection.mk port_x port_A_in1 None) eq_refl).
  reflexivity.
Defined.

(** ** Documents the build accepts *)

Lemma slash_split_length (s : string) :
  str_in "/" s = true -> (2 <= List.length (split_slash s))%nat.
Proof.
  induction s as [|c s IH]; [discriminate|].
  rewrite str_in_slash_cons. simpl.
  pose proof (split_slash_nonempty s) as Hn.
  destruct (Ascii.eqb c "/"); simpl.
  - intros _. destruct (split_slash s); [contradiction Hn; reflexivity | simpl; lia].
  - intros H. specialize (IH H).
    destruct (split_slash s); [contradiction Hn; reflexivity | exact IH].
Qed.

Lemma get_source_handles env self r :
  ref_ok r ->
  (exists p, Workflow._get_source env self r = Ok p)
  \/ (exists m, Workflow._get_source env self r = Raise (WFConnectionError m)).
Proof.
  intros [->|(s & -> & Hlen)]; [right; eexists; reflexivity|].
  unfold Workflow._get_source. destruct s as [|c s]; [right; eexists; reflexivity|].
  destruct (str_in "/" (String c s)) eqn:Hs.
  - apply slash_split_length in Hs. unfold Workflow._get_step_source.
    destruct (split_slash (String c s)) as [|a [|b [|t ts]]]; simpl in Hs, Hlen; try lia.
    destruct (dict_get (Workflow.steps self) a) as [st|]; [|right; eexists; reflexivity].
    destruct (dict_get (Step.available_sources st) b);
      [left | right]; eexists; reflexivity.
  - destruct (dict_get (Workflow.inputs self) (String c s));
      [left | right]; eexists; reflexivity.
Qed.

Lemma connect_sources_total env self label sink srcs c p :
  Forall ref_ok srcs ->
  exists c' p', Workflow.connect_sources env self label sink srcs c p = Ok (c', p').
Proof.
  intros Hall. revert c p. induction Hall as [|r srcs Hr _ IH]; simpl; intros c p.
  - eauto.
  - destruct (get_source_handles env self r Hr) as [[q ->]|[m ->]]; apply IH.
Qed.

Lemma get_items_section_map s e d name :
  section_is_map d name ->
  exists kvs, get_items (CWLMap s e d) name = Ok kvs.
Proof.
  unfold section_is_map, get_items. simpl.
  destruct (assoc name d) as [[v | s' e' l | s' e' l]|]; simpl;
    try contradiction; eauto.
Qed.

Lemma connect_sinks_total env self this_step bindings c p :
  Forall (fun kv => source_field_ok "source" (snd kv)) bindings ->
  exists c' p', Workflow.connect_sinks env self this_step bindings c p = Ok (c', p').
Proof.
  intros Hall. revert c p.
  induction Hall as [|[k v] bindings (s & e & o & Hv & Ho) _ IH]; simpl; intros c p.
  - eauto.
  - simpl in Hv. subst v.
    destruct (dict_get (Step.available_sinks this_step) k) as [sink|]; [|apply IH].
    rewrite node_contains_map. unfold has_key, node_getitem. simpl.
    destruct (assoc "source" o) as [src|]; simpl; [|apply IH].
    destruct (connect_sources_total env self
                (Step.__repr__ this_step ++ String "." k) sink
                (iter_scalar_or_list src) c p Ho) as (c1 & p1 & ->).
    simpl. apply IH.
Qed.

Lemma connect_steps_total env self root step_items c p :
  Forall (fun kv => step_ok env root (snd kv)) step_items ->
  (forall k, In k (map fst step_items) ->
             exists st, dict_get (Workflow.steps self) k = Some st) ->
  exists c' p', Workflow.connect_steps env self step_items c p = Ok (c', p').
Proof.
  intros Hall. revert c p.
  induction Hall as [|[k v] step_items (s & e & sd & Hv & _ & Hin) _ IH];
    simpl; intros c p Hkeys.
  - eauto.
  - simpl in Hv. subst v.
    destruct (Hkeys k) as [st ->]; [left; reflexivity|]. cbn [bind].
    assert (Hb : exists bindings,
               get_items (CWLMap s e sd) "in" = Ok bindings
               /\ Forall (fun kv => source_field_ok "source" (snd kv)) bindings).
    { unfold get_items. simpl.
      destruct (assoc "in" sd) as [[v | s' e' l | s' e' l]|]; simpl;
        try contradiction; eauto. }
    destruct Hb as (bindings & -> & Hb). cbn [bind].
    destruct (connect_sinks_total env self st bindings c p Hb) as (c1 & p1 & ->).
    cbn [bind]. apply IH. intros k' Hk'. apply Hkeys. right; exact Hk'.
Qed.

Lemma connect_outputs_total env self out_items c p :
  Forall (fun kv => source_field_ok "outputSource" (snd kv)) out_items ->
  (forall k, In k (map fst out_items) ->
             exists q, dict_get (Workflow.outputs self) k = Some q) ->
  exists c' p', Workflow.connect_outputs env self out_items c p = Ok (c', p').
Proof.
  intros Hall. revert c p.
  induction Hall as [|[k v] out_items (s & e & o & Hv & Ho) _ IH];
    simpl; intros c p Hkeys.
  - eauto.
  - simpl in Hv. subst v.
    destruct (Hkeys k) as [q ->]; [left; reflexivity|]. cbn [bind].
    assert (IH' : forall c p, exists c' p',
               Workflow.connect_outputs env self out_items c p = Ok (c', p')).
    { intros c0 p0. apply IH. intros k' Hk'. apply Hkeys. right; exact Hk'. }
    rewrite node_contains_map. unfold has_key, node_getitem. simpl.
    destruct (assoc "outputSource" o) as [src|]; simpl; [|apply IH'].
    destruct (connect_sources_total env self (Port.port_id q) q
                (iter_scalar_or_list src) c p Ho) as (c1 & p1 & ->).
    simpl. apply IH'.
Qed.

Lemma interface_items n :
  interface_ok n ->
  exists ins outs,
    (x <- value_get (VNode n) "inputs" ;; iter_lom x) = Ok ins
    /\ (x <- value_get (VNode n) "outputs" ;; iter_lom x) = Ok outs.
Proof.
  intros (s & e & rd & -> & Hi & Ho).
  destruct (get_items_section_map s e rd "inputs" Hi) as [ins Hins].
  destruct (get_items_section_map s e rd "outputs" Ho) as [outs Houts].
  exists ins, outs. split; [exact Hins | exact Houts].
Qed.

Lemma from_doc_total env step_id line s e sd root errs :
  run_ok env root sd ->
  exists st errs', Step.from_doc env step_id line (CWLMap s e sd) root errs = Ok (st, errs').
Proof.
  unfold run_ok. intros Hrun.
  destruct (assoc "run" sd) as [run|] eqn:Hr.
  - assert (Hc : node_contains (CWLMap s e sd) "run" = Ok true).
    { rewrite node_contains_map. unfold has_key. rewrite Hr. reflexivity. }
    assert (Hg : node_getitem (CWLMap s e sd) "run" = Ok run).
    { unfold node_getitem. simpl. rewrite Hr. reflexivity. }
    rewrite (from_doc_run_present _ _ _ _ _ _ Hc), Hg. cbn [bind].
    assert (Hinline : forall n (er : list string), interface_ok n ->
              exists st errs',
                (in_items <- (ins <- value_get (VNode n) "inputs" ;; iter_lom ins) ;;
                 out_items <- (outs <- value_get (VNode n) "outputs" ;; iter_lom outs) ;;
                 Ok (Step.mk line step_id
                       (OrderedDict (Step.interface_ports step_id in_items))
                       (OrderedDict (Step.interface_ports step_id out_items)), er))
                = Ok (st, errs')).
    { intros n er Hn. destruct (interface_items n Hn) as (ins & outs & -> & ->).
      cbn [bind]. eauto. }
    destruct run as [[| r | | |]| sr er rd | sr er l];
      try (cbn [bind]; apply Hinline; exact Hrun).
    destruct (bind _ _) as [n|[]]; try contradiction; cbn [bind].
    + apply Hinline. exact Hrun.
    + simpl. eauto.
  - unfold Step.from_doc. rewrite node_contains_map. unfold has_key. rewrite Hr.
    simpl. eauto.
Qed.

Lemma build_steps_total env root step_items p :
  Forall (fun kv => step_ok env root (snd kv)) step_items ->
  exists sts p', Workflow.build_steps env root step_items p = Ok (sts, p').
Proof.
  intros Hall. revert p.
  induction Hall as [|[k v] step_items (s & e & sd & Hv & Hrun & _) _ IH];
    simpl; intros p.
  - eauto.
  - simpl in Hv. subst v. cbn [line_span bind].
    destruct (from_doc_total env k (s, e) s e sd root p Hrun) as (st & p1 & ->).
    cbn [bind]. destruct (IH p1) as (sts & p2 & ->). cbn [bind]. eauto.
Qed.

(** X11: a document of mappings is always built.  When the top level is a
    mapping, [inputs] is absent or a mapping of entries with line spans,
    [outputs] and the [in] of every step are absent or mappings of mappings
    whose [outputSource] or [source], when present, holds only [None] and
    strings with at most one slash, and every step is a mapping whose [run]
    is absent, an inline sub-process, or a path to a file that is not found
    or parses to a sub-process, then [__init__] returns a workflow: missing
    sections, unknown sinks and unresolved references never abort it. *)
Theorem well_shaped_document_is_built env doc :
  well_shaped env doc -> exists wf, Workflow.__init__ env (Some doc) = Ok wf.
Proof.
  intros (s & e & top & Hdoc & Hin & Hout & Hsteps).
  assert (Hii : exists ii ip, get_items (CWLMap s e top) "inputs" = Ok ii
                              /\ Workflow.wf_ports ii = Ok ip).
  { unfold get_items. simpl.
    destruct (assoc "inputs" top) as [[v | s' e' l | s' e' l]|]; simpl;
      try contradiction.
    - destruct (wf_ports_total l Hin) as [ip Hip]. eauto.
    - exists [], []. split; reflexivity. }
  assert (Hoi : exists oi op, get_items (CWLMap s e top) "outputs" = Ok oi
                              /\ Workflow.wf_ports oi = Ok op
                              /\ Forall (fun kv => source_field_ok "outputSource" (snd kv)) oi).
  { unfold get_items. simpl.
    destruct (assoc "outputs" top) as [[v | s' e' l | s' e' l]|]; simpl;
      try contradiction.
    - destruct (wf_ports_total l) as [op Hop].
      + eapply Forall_impl; [|exact Hout]. intros kv (s0 & e0 & o & -> & _).
        simpl. eauto.
      + eauto.
    - exists [], []. repeat split. constructor. }
  assert (Hsi : exists si, get_items (CWLMap s e top) "steps" = Ok si
                           /\ Forall (fun kv => step_ok env (path doc) (snd kv)) si).
  { unfold get_items. simpl.
    destruct (assoc "steps" top) as [[v | s' e' l | s' e' l]|]; simpl;
      try contradiction; eauto. }
  destruct Hii as (ii & ip & Hii & Hip).
  destruct Hoi as (oi & op & Hoi & Hop & Hoall).
  destruct Hsi as (si & Hsi & Hsall).
  unfold Workflow.__init__. rewrite Hdoc, check_sections_map. cbn [bind].
  rewrite Hii. cbn [bind]. rewrite Hip. cbn [bind].
  rewrite Hoi. cbn [bind]. rewrite Hop. cbn [bind]. rewrite Hsi. cbn [bind].
  destruct (build_steps_total env (path doc) si
              ([] ++ map Workflow.missing_msg
                       (filter (fun sec => negb (has_key sec top))
                          Workflow.required_sections)) Hsall)
    as (sts & p1 & Hsts).
  rewrite Hsts. cbn [bind].
  unfold Workflow._list_connections. cbn [Workflow.cwl_doc Workflow.problems_with_wf].
  rewrite Hdoc, Hsi. cbn [bind].
  pose proof (build_steps_ok _ _ _ _ _ _ Hsts) as [Hks _].
  pose proof (wf_ports_shape _ _ Hop) as [Hko _].
  match goal with
  | |- context [Workflow.connect_steps env ?self si [] p1] =>
      destruct (connect_steps_total env self (path doc) si [] p1 Hsall) as (c1 & p2 & ->)
  end.
  { intros k Hk. cbn [Workflow.steps]. apply OrderedDict_get_key.
    rewrite Hks. exact Hk. }
  cbn [bind]. rewrite Hoi. cbn [bind].
  match goal with
  | |- context [Workflow.connect_outputs env ?self oi c1 p2] =>
      destruct (connect_outputs_total env self oi c1 p2 Hoall) as (c2 & p3 & ->)
  end.
  { intros k Hk. cbn [Workflow.outputs]. apply OrderedDict_get_key.
    rewrite Hko. exact Hk. }
  cbn [bind]. eauto.
Qed.

Lemma well_shaped_document_is_built_witness :
  well_shaped no_files (doc_with two_sources output_o)
  /\ exists wf, Workflow.__init__ no_files (Some (doc_with two_sources output_o)) = Ok wf.
Proof.
  assert (Hx : ref_ok (str "x")).
  { right. exists "x". split; [reflexivity | simpl; lia]. }
  assert (Ho : ref_ok (str "A/out1")).
  { right. exists "A/out1". split; [reflexivity | simpl; lia]. }
  assert (H : well_shaped no_files (doc_with two_sources output_o)).
  { exists 0%Z, 11%Z, (top_with two_sources output_o).
    split; [reflexivity | split; [|split]]; simpl.
    - constructor; [exists (3, 3)%Z; reflexivity | constructor].
    - constructor; [|constructor].
      exists 4%Z, 4%Z, [("outputSource", str "A/out1")].
      split; [reflexivity | simpl]. constructor; [exact Ho | constructor].
    - constructor; [|constructor].
      exists 6%Z, 11%Z, (step_A_entries two_sources).
      split; [reflexivity | split]; simpl.
      + unfold run_ok. simpl.
        exists 7%Z, 9%Z,
          [("inputs", CWLMap 8 8 [("in1", CWLMap 8 8 [("type", str "string")])]);
           ("outputs", CWLMap 9 9 [("out1", CWLMap 9 9 [("type", str "string")])])].
        split; [reflexivity | split; exact I].
      + constructor; [|constructor].
        exists 11%Z, 11%Z, [("source", two_sources)].
        split; [reflexivity | simpl].
        constructor; [exact Hx | constructor; [exact Ho | constructor]]. }
  split; [exact H|].
  apply (well_shaped_document_is_built no_files (doc_with two_sources output_o) H).
Defined.

(** ** No reference is dropped *)

Ltac bind_as H x Hx := apply bind_ok in H; destruct H as [x [Hx H]].

Lemma get_source_fields env self self' r :
  Workflow.inputs self = Workflow.inputs self' ->
  Workflow.steps self = Workflow.steps self' ->
  Workflow._get_source env self r = Workflow._get_source env self' r.
Proof.
  intros Hi Hs. unfold Workflow._get_source, Workflow._get_step_source.
  rewrite Hi, Hs. reflexivity.
Qed.

(** What one reference has left in the two lists. *)
Lemma connect_sources_complete env self label sink srcs c p c' p' r :
  Workflow.connect_sources env self label sink srcs c p = Ok (c', p') ->
  In r srcs ->
  match Workflow._get_source env self r with
  | Ok src => In (Connection.mk src sink (Port.line src)) c'
  | Raise (WFConnectionError m) => In (label ++ ": " ++ m)%string p'
  | Raise _ => False
  end.
Proof.
  revert c p. induction srcs as [|_src srcs IH]; simpl; intros c p H Hin;
    [contradiction|].
  destruct Hin as [->|Hin].
  - destruct (Workflow._get_source env self r) as [src|e] eqn:Hr.
    + apply sources_pass in H. destruct H as (new & extra & -> & _).
      apply in_or_app. left. apply in_or_app. right. left. reflexivity.
    + destruct e; try discriminate.
      apply sources_pass in H. destruct H as (new & extra & _ & -> & _).
      apply in_or_app. left. apply in_or_app. right. left. reflexivity.
  - destruct (Workflow._get_source env self _src) as [src|e].
    + eapply IH; eassumption.
    + destruct e; try discriminate. eapply IH; eassumption.
Qed.

Lemma pass_keeps Pc Pd c c' p p' :
  pass_appends Pc Pd c c' p p' ->
  (forall x, In x c -> In x c') /\ (forall d, In d p -> In d p').
Proof.
  intros (new & extra & -> & -> & _).
  split; intros; apply in_or_app; left; assumption.
Qed.

Lemma connect_outputs_complete env self out_items c p c' p' o v src r sink :
  Workflow.connect_outputs env self out_items c p = Ok (c', p') ->
  In (o, v) out_items ->
  dict_get (Workflow.outputs self) o = Some sink ->
  node_contains v "outputSource" = Ok true ->
  node_getitem v "outputSource" = Ok src ->
  In r (iter_scalar_or_list src) ->
  match Workflow._get_source env self r with
  | Ok q => In (Connection.mk q sink (Port.line q)) c'
  | Raise (WFConnectionError m) => In (Port.port_id sink ++ ": " ++ m)%string p'
  | Raise _ => False
  end.
Proof.
  intros H Hin Hsink Hc Hg Hin_r. revert c p H.
  induction out_items as [|[o0 v0] out_items IH]; simpl; intros c p H; [contradiction|].
  bind_as H sink0 Hs0. bind_as H has Hhas.
  destruct Hin as [E|Hin].
  - injection E as -> ->. rewrite Hsink in Hs0. injection Hs0 as <-.
    rewrite Hc in Hhas. injection Hhas as <-. cbv iota in H.
    bind_as H src0 Hsrc0. rewrite Hg in Hsrc0. injection Hsrc0 as <-.
    bind_as H cp Hcp. destruct cp as [c1 p1].
    pose proof (connect_sources_complete _ _ _ _ _ _ _ _ _ r Hcp Hin_r) as Hone.
    apply outputs_pass in H. apply pass_keeps in H. destruct H as [Hkc Hkp].
    destruct (Workflow._get_source env self r) as [q|[]]; auto.
  - destruct has.
    + bind_as H src0 Hsrc0. bind_as H cp Hcp. destruct cp as [c1 p1].
      eapply IH; eassumption.
    + eapply IH; eassumption.
Qed.

Lemma connect_sinks_complete env self sid this_step bindings c p c' p' k port_doc :
  dict_get (Workflow.steps self) sid = Some this_step ->
  Workflow.connect_sinks env self this_step bindings c p = Ok (c', p') ->
  In (k, port_doc) bindings ->
  match dict_get (Step.available_sinks this_step) k with
  | None => In ("No such sink: " ++ Step.id this_step ++ "." ++ k)%string p'
  | Some sink =>
      forall src r,
        node_contains port_doc "source" = Ok true ->
        node_getitem port_doc "source" = Ok src ->
        In r (iter_scalar_or_list src) ->
        match Workflow._get_source env self r with
        | Ok q => In (Connection.mk q sink (Port.line q)) c'
        | Raise (WFConnectionError m) =>
            In (Step.__repr__ this_step ++ "." ++ k ++ ": " ++ m)%string p'
        | Raise _ => False
        end
  end.
Proof.
  intros Hst H Hin. revert c p H.
  induction bindings as [|[k0 d0] bindings IH]; simpl; intros c p H; [contradiction|].
  destruct Hin as [E|Hin].
  - injection E as -> ->.
    destruct (dict_get (Step.available_sinks this_step) k) as [sink|] eqn:Hs.
    + intros src r Hc Hg Hin_r. rewrite Hc in H. cbn [bind] in H. rewrite Hg in H.
      cbn [bind] in H. bind_as H cp Hcp. destruct cp as [c1 p1].
      pose proof (connect_sources_complete _ _ _ _ _ _ _ _ _ r Hcp Hin_r) as Hone.
      eapply sinks_pass in H; [|exact Hst]. apply pass_keeps in H.
      destruct H as [Hkc Hkp].
      destruct (Workflow._get_source env self r) as [q|[]]; auto.
      apply Hkp. rewrite str_app_assoc in Hone. exact Hone.
    + eapply sinks_pass in H; [|exact Hst]. apply pass_keeps in H.
      destruct H as [_ Hkp]. apply Hkp, in_or_app. right. left. reflexivity.
  - destruct (dict_get (Step.available_sinks this_step) k0) as [sink0|].
    + bind_as H has Hhas. destruct has.
      * bind_as H src0 Hsrc0. bind_as H cp Hcp. destruct cp as [c1 p1].
        eapply IH; eassumption.
      * eapply IH; eassumption.
    + eapply IH; eassumption.
Qed.

Lemma connect_steps_complete env self step_items c p c' p' sid s e sd st bindings
      k port_doc :
  Workflow.connect_steps env self step_items c p = Ok (c', p') ->
  In (sid, CWLMap s e sd) step_items ->
  dict_get (Workflow.steps self) sid = Some st ->
  get_items (CWLMap s e sd) "in" = Ok bindings ->
  In (k, port_doc) bindings ->
  match dict_get (Step.available_sinks st) k with
  | None => In ("No such sink: " ++ Step.id st ++ "." ++ k)%string p'
  | Some sink =>
      forall src r,
        node_contains port_doc "source" = Ok true ->
        node_getitem port_doc "source" = Ok src ->
        In r (iter_scalar_or_list src) ->
        match Workflow._get_source env self r with
        | Ok q => In (Connection.mk q sink (Port.line q)) c'
        | Raise (WFConnectionError m) =>
            In (Step.__repr__ st ++ "." ++ k ++ ": " ++ m)%string p'
        | Raise _ => False
        end
  end.
Proof.
  intros H Hin Hst Hb Hk. revert c p H.
  induction step_items as [|[sid0 v0] step_items IH]; simpl; intros c p H;
    [contradiction|].
  destruct Hin as [E|Hin].
  - injection E as -> ->. rewrite Hst in H. cbn [bind] in H. rewrite Hb in H.
    cbn [bind] in H. bind_as H cp Hcp. destruct cp as [c1 p1].
    pose proof (connect_sinks_complete _ _ _ _ _ _ _ _ _ _ _ Hst Hcp Hk) as Hone.
    apply steps_pass in H. apply pass_keeps in H. destruct H as [Hkc Hkp].
    destruct (dict_get (Step.available_sinks st) k) as [sink|]; [|auto].
    intros src r Hc Hg Hin_r. specialize (Hone src r Hc Hg Hin_r).
    destruct (Workflow._get_source env self r) as [q|[]]; auto.
  - destruct v0 as [v | s0 e0 obj | s0 e0 obj]; try (eapply IH; eassumption).
    bind_as H st0 Hst0. bind_as H bs Hbs. bind_as H cp Hcp. destruct cp as [c1 p1].
    eapply IH; eassumption.
Qed.

(** X12: no reference of a workflow output is dropped.  In a built workflow,
    for every declared output [o] with an [outputSource] and every reference
    [r] it lists, the output port stored under [o] has [port_id] [o], and
    either [r] resolves and the connection from the resolved port to that
    output port, with the line of the resolved port, is in [connections], or
    the resolution fails with a reason and [<o>: <reason>] is in the
    problems. *)
Theorem output_references_are_recorded env doc wf out_items o v src r :
  Workflow.__init__ env (Some doc) = Ok wf ->
  get_items (cwl_dict doc) "outputs" = Ok out_items ->
  In (o, v) out_items ->
  node_contains v "outputSource" = Ok true ->
  node_getitem v "outputSource" = Ok src ->
  In r (iter_scalar_or_list src) ->
  exists sink,
    dict_get (Workflow.outputs wf) o = Some sink
    /\ Port.port_id sink = o
    /\ match Workflow._get_source env wf r with
       | Ok q => In (Connection.mk q sink (Port.line q)) (Workflow.connections wf)
       | Raise (WFConnectionError m) =>
           In (o ++ ": " ++ m)%string (Workflow.problems_with_wf wf)
       | Raise _ => False
       end.
Proof.
  intros H Hitems Hin Hc Hg Hin_r.
  pose proof (built_ports_ok _ _ _ H) as (_ & Hout & _).
  apply init_inv in H.
  destruct H as (p0 & ii & ip & oi & op & si & sts & p1 &
                 _ & _ & _ & Hoi & Hop & _ & _ & Hl & E).
  rewrite Hitems in Hoi. injection Hoi as <-.
  pose proof (wf_ports_shape _ _ Hop) as [Hko _].
  destruct (OrderedDict_get_key op o) as [sink Hsink].
  { rewrite Hko. change o with (fst (o, v)). apply in_map, Hin. }
  exists sink.
  assert (Hsink' : dict_get (Workflow.outputs wf) o = Some sink).
  { rewrite E. exact Hsink. }
  destruct (Hout _ _ Hsink') as [_ Hpid].
  split; [exact Hsink' | split; [exact Hpid|]].
  unfold Workflow._list_connections in Hl. cbn [Workflow.cwl_doc] in Hl.
  bind_as Hl sitems Hsitems. bind_as Hl cp Hcp. destruct cp as [c1 pr1].
  bind_as Hl oitems Hoitems. rewrite Hitems in Hoitems. injection Hoitems as <-.
  pose proof (connect_outputs_complete _ _ _ _ _ _ _ _ _ _ _ sink Hl Hin Hsink Hc Hg Hin_r)
    as Hone.
  rewrite Hpid in Hone.
  rewrite (get_source_fields env wf
             (Workflow.mk doc p1 (OrderedDict ip) (OrderedDict op) (OrderedDict sts) []));
    [exact Hone | rewrite E; reflexivity | rewrite E; reflexivity].
Qed.

Lemma output_references_are_recorded_witness :
  exists sink,
    dict_get (Workflow.outputs wf_with_output) "o" = Some sink
    /\ Port.port_id sink = "o"
    /\ match Workflow._get_source no_files wf_with_output (str "A/out1") with
       | Ok q => In (Connection.mk q sink (Port.line q)) (Workflow.connections wf_with_output)
       | Raise (WFConnectionError m) =>
           In ("o" ++ ": " ++ m)%string (Workflow.problems_with_wf wf_with_output)
       | Raise _ => False
       end.
Proof.
  apply (output_references_are_recorded no_files (doc_with two_sources output_o)
           wf_with_output output_o "o" (CWLMap 4 4 [("outputSource", str "A/out1")])
           (str "A/out1") (str "A/out1")).
  - reflexivity.
  - reflexivity.
  - left; reflexivity.
  - reflexivity.
  - reflexivity.
  - left; reflexivity.
Defined.



(** ** References of a built workflow *)

Lemma get_source_many_slashes env self s :
  (2 < List.length (split_slash s))%nat ->
  Workflow._get_source env self (Scalar (PyStr s)) = Raise ValueError.
Proof.
  intros Hlen. unfold Workflow._get_source.
  destruct s as [|c s]; [simpl in Hlen; lia|].
  destruct (str_in "/" (String c s)) eqn:Hs.
  - unfold Workflow._get_step_source.
    destruct (split_slash (String c s)) as [|a [|b [|t ts]]]; simpl in Hlen; try lia.
    reflexivity.
  - rewrite (split_no_slash _ Hs) in Hlen. simpl in Hlen. lia.
Qed.

Lemma handled_is_accepted env self r :
  match Workflow._get_source env self r with
  | Ok _ => True
  | Raise (WFConnectionError _) => True
  | Raise _ => False
  end ->
  ref_accepted r.
Proof.
  intros H. destruct r as [[| s | z | f | b]| |]; try exact I; try exact H.
  destruct (Nat.le_gt_cases (List.length (split_slash s)) 2) as [Hle|Hgt];
    [exact Hle|].
  rewrite (get_source_many_slashes env self s Hgt) in H. contradiction.
Qed.

(** X14: what a finished build says about the document.  When [__init__]
    returns a workflow, every reference listed by the [outputSource] of a
    declared output, and every reference listed by the [source] of a step
    binding whose name is an available sink of the stored step, is [None], a
    string with at most one slash, or an object of the parser's classes: a
    document holding there a number, a boolean or a string with two or more
    slashes is never built. *)
Theorem built_references_are_accepted env doc wf :
  Workflow.__init__ env (Some doc) = Ok wf ->
  (forall out_items o v src r,
      get_items (cwl_dict doc) "outputs" = Ok out_items ->
      In (o, v) out_items ->
      node_contains v "outputSource" = Ok true ->
      node_getitem v "outputSource" = Ok src ->
      In r (iter_scalar_or_list src) ->
      ref_accepted r)
  /\ (forall step_items sid s e sd bindings k port_doc st src r,
         get_items (cwl_dict doc) "steps" = Ok step_items ->
         In (sid, CWLMap s e sd) step_items ->
         get_items (CWLMap s e sd) "in" = Ok bindings ->
         In (k, port_doc) bindings ->
         dict_get (Workflow.steps wf) sid = Some st ->
         dict_contains (Step.available_sinks st) k = true ->
         node_contains port_doc "source" = Ok true ->
         node_getitem port_doc "source" = Ok src ->
         In r (iter_scalar_or_list src) ->
         ref_accepted r).
Proof.
  intros H. pose proof H as H0. apply init_inv in H0.
  destruct H0 as (p0 & ii & ip & oi & op & si & sts & p1 &
                  _ & _ & _ & Hoi & Hop & Hsi & Hsts & Hl & E).
  unfold Workflow._list_connections in Hl. cbn [Workflow.cwl_doc] in Hl.
  bind_as Hl sitems Hsitems. rewrite Hsi in Hsitems. injection Hsitems as <-.
  bind_as Hl cp Hcp. destruct cp as [c1 pr1].
  bind_as Hl oitems Hoitems. rewrite Hoi in Hoitems. injection Hoitems as <-.
  split.
  - intros out_items o v src r Hitems Hin Hc Hg Hin_r.
    rewrite Hoi in Hitems. injection Hitems as <-.
    pose proof (wf_ports_shape _ _ Hop) as [Hko _].
    destruct (OrderedDict_get_key op o) as [sink Hsink].
    { rewrite Hko. change o with (fst (o, v)). apply in_map, Hin. }
    pose proof (connect_outputs_complete _ _ _ _ _ _ _ _ _ _ _ sink Hl Hin Hsink Hc Hg Hin_r)
      as Hone.
    apply (handled_is_accepted env
             (Workflow.mk doc p1 (OrderedDict ip) (OrderedDict op) (OrderedDict sts) []) r).
    revert Hone. destruct (Workflow._get_source env _ r) as [q|[]]; auto.
  - intros step_items sid s e sd bindings k port_doc st src r
           Hitems Hin Hb Hk Hst Hsink Hc Hg Hin_r.
    rewrite Hsi in Hitems. injection Hitems as <-.
    rewrite E in Hst. cbn [Workflow.steps] in Hst.
    pose proof (connect_steps_complete _ _ _ _ _ _ _ _ _ _ _ _ _ _ _ Hcp Hin Hst Hb Hk)
      as Hone.
    unfold dict_contains in Hsink.
    destruct (dict_get (Step.available_sinks st) k) as [sink|]; [|discriminate].
    specialize (Hone src r Hc Hg Hin_r).
    apply (handled_is_accepted env
             (Workflow.mk doc p1 (OrderedDict ip) (OrderedDict op) (OrderedDict sts) []) r).
    revert Hone. destruct (Workflow._get_source env _ r) as [q|[]]; auto.
Qed.

Lemma built_references_are_accepted_witness :
  ref_accepted (str "A/out1").
Proof.
  apply (proj1 (built_references_are_accepted no_files (doc_with two_sources output_o)
                  wf_with_output eq_refl)
           output_o "o" (CWLMap 4 4 [("outputSource", str "A/out1")])
           (str "A/out1") (str "A/out1")).
  - reflexivity.
  - left; reflexivity.
  - reflexivity.
  - reflexivity.
  - left; reflexivity.
Defined.
